(** * Rubygame surface transforms

    A shallow embedding of [ext/rubygame/rubygame_transform.c]: the flip
    kernel with its allocator [newsurf_fromsurf], and the argument dispatch
    of [rotozoom], [rotozoom_size], [zoom] and [zoom_size] in front of the
    SDL_gfx resampler.

    Pixel buffers are lists of bytes addressed by byte offsets, C [int]
    arithmetic wraps at 32 bits, SDL surfaces live in a store indexed by
    pointers, and an entry point is a computation over that store which
    returns a value, raises a Ruby exception, or is undefined. *)

From Stdlib Require Import ZArith Lia String.
From coqutil Require Import Byte Word.LittleEndianList.
From stdpp Require Import base option list gmap strings.

Local Open Scope Z_scope.

(** ** C integers *)

(** [int] is a 32-bit two's complement integer. *)
Definition wrap_int (x : Z) : Z := (x + 2 ^ 31) mod 2 ^ 32 - 2 ^ 31.

Definition int_mul (a b : Z) : Z := wrap_int (a * b).
Definition int_sub (a b : Z) : Z := wrap_int (a - b).

Definition INT_MAX : Z := 2 ^ 31 - 1.

(** ** Pixel memory *)

(** A pixel buffer is the list of its bytes; a [Uint8*] into it is a byte
    offset.  An access that leaves the buffer has no defined result. *)

Definition load_bytes (m : list byte) (p : Z) (n : nat) : option (list byte) :=
  if bool_decide (0 <= p ∧ p + Z.of_nat n <= Z.of_nat (length m))
  then Some (take n (drop (Z.to_nat p) m))
  else None.

Definition store_bytes (m : list byte) (p : Z) (bs : list byte) : option (list byte) :=
  if bool_decide (0 <= p ∧ p + Z.of_nat (length bs) <= Z.of_nat (length m))
  then Some (take (Z.to_nat p) m ++ bs ++ drop (Z.to_nat p + length bs) m)
  else None.

(** The value of an unsigned integer object and its object representation,
    for either byte order. *)
Definition decode_uint (big_endian : bool) (bs : list byte) : Z :=
  le_combine (if big_endian then reverse bs else bs).

Definition encode_uint (big_endian : bool) (sz : nat) (v : Z) : list byte :=
  if big_endian then reverse (le_split sz v) else le_split sz v.

(** [*(UintN* )p] for N = 8 * sz. *)
Definition load_uint (be : bool) (sz : nat) (m : list byte) (p : Z) : option Z :=
  decode_uint be <$> load_bytes m p sz.

(** [*(UintN* )p = v]. *)
Definition store_uint (be : bool) (sz : nat) (m : list byte) (p : Z) (v : Z)
  : option (list byte) :=
  store_bytes m p (encode_uint be sz v).

Definition load8 (m : list byte) (p : Z) : option byte :=
  bs ← load_bytes m p 1; head bs.

Definition store8 (m : list byte) (p : Z) (b : byte) : option (list byte) :=
  store_bytes m p [b].

(** [memcpy(dst + d, src + s, n)] between two distinct buffers; [n] is
    converted to [size_t], so a negative [int] is out of every buffer. *)
Definition memcpy (dst : list byte) (d : Z) (src : list byte) (s : Z) (n : Z)
  : option (list byte) :=
  if bool_decide (0 <= n)
  then bs ← load_bytes src s (Z.to_nat n); store_bytes dst d bs
  else None.

(** The byte at offset [i], when there is one. *)
Definition peek (m : list byte) (i : Z) : option byte :=
  if bool_decide (0 <= i) then m !! Z.to_nat i else None.

(** ** SDL surfaces *)

Record SDL_PixelFormat := {
  palette : option (list Z);
  BitsPerPixel : Z;
  BytesPerPixel : Z;
  Rmask : Z; Gmask : Z; Bmask : Z; Amask : Z;
  colorkey : Z
}.

Record SDL_Surface := {
  surf_flags : Z;
  surf_format : SDL_PixelFormat;
  surf_w : Z;
  surf_h : Z;
  surf_pitch : Z;
  surf_pixels : list byte
}.

Definition SDL_SRCCOLORKEY : Z := 0x00001000.
Definition SDL_RLEACCEL : Z := 0x00004000.

Definition set_pixels (s : SDL_Surface) (px : list byte) : SDL_Surface :=
  {| surf_flags := surf_flags s; surf_format := surf_format s;
     surf_w := surf_w s; surf_h := surf_h s; surf_pitch := surf_pitch s;
     surf_pixels := px |}.

(** ** Counting loops *)

(** [for (i = i0; i < i0 + n; ++i) body], threading the loop state; the
    loop stops at the first undefined step. *)
Fixpoint for_loop {St : Type} (n : nat) (i : Z) (body : Z → St → option St) (s : St)
  : option St :=
  match n with
  | O => Some s
  | S n' => s' ← body i s; for_loop n' (i + 1) body s'
  end.

(** ** The flip kernel *)

(** The state of an inner loop: the two running pointers [dst] and [src]
    and the destination buffer written so far. *)
Record cursor := { cur_dst : Z; cur_src : Z; cur_mem : list byte }.

(** [*dst++ = *src--] through [UintN*] pointers, N = 8 * sz. *)
Definition copy_uint (be : bool) (sz : nat) (srcpix : list byte) (c : cursor)
  : option cursor :=
  v ← load_uint be sz srcpix (cur_src c);
  m ← store_uint be sz (cur_mem c) (cur_dst c) v;
  Some {| cur_dst := cur_dst c + Z.of_nat sz;
          cur_src := cur_src c - Z.of_nat sz;
          cur_mem := m |}.

(** [dst[0] = src[0]; dst[1] = src[1]; dst[2] = src[2]; dst += 3; src -= 3]. *)
Definition copy_24 (srcpix : list byte) (c : cursor) : option cursor :=
  b0 ← load8 srcpix (cur_src c + 0);
  m0 ← store8 (cur_mem c) (cur_dst c + 0) b0;
  b1 ← load8 srcpix (cur_src c + 1);
  m1 ← store8 m0 (cur_dst c + 1) b1;
  b2 ← load8 srcpix (cur_src c + 2);
  m2 ← store8 m1 (cur_dst c + 2) b2;
  Some {| cur_dst := cur_dst c + 3; cur_src := cur_src c - 3; cur_mem := m2 |}.

(** One row of a reversed copy: [dst] and [src] are set for the row, then
    [for (loopx = 0; loopx < w; ++loopx) step]. *)
Definition reverse_row (w : Z) (step : cursor → option cursor)
    (dst src : Z) (dstpix : list byte) : option (list byte) :=
  cur_mem <$> for_loop (Z.to_nat w) 0 (λ _, step)
                {| cur_dst := dst; cur_src := src; cur_mem := dstpix |}.

(** The pixel-filling phase of [rbgm_transform_flip] (between
    [SDL_LockSurface] and [SDL_UnlockSurface]): the new contents of
    [newsurf->pixels]. *)
Definition flip_pixels (be : bool) (surf newsurf : SDL_Surface) (xaxis yaxis : Z)
  : option (list byte) :=
  let srcpitch := surf_pitch surf in
  let dstpitch := surf_pitch newsurf in
  let srcpix := surf_pixels surf in
  let dstpix := surf_pixels newsurf in
  let w := surf_w surf in
  let h := surf_h surf in
  let Bpp := BytesPerPixel (surf_format surf) in
  let rows := for_loop (Z.to_nat h) 0 in
  if bool_decide (xaxis = 0) then
    if bool_decide (yaxis = 0) then
      rows (λ loopy dstpix,
        memcpy dstpix (int_mul loopy dstpitch)
               srcpix (int_mul loopy srcpitch) (int_mul w Bpp)) dstpix
    else
      rows (λ loopy dstpix,
        memcpy dstpix (int_mul loopy dstpitch)
               srcpix (int_mul (int_sub (int_sub h 1) loopy) srcpitch)
               (int_mul w Bpp)) dstpix
  else
    if bool_decide (yaxis ≠ 0) then
      if bool_decide (Bpp = 1) then
        rows (λ loopy, reverse_row w (copy_uint be 1 srcpix)
          (int_mul loopy dstpitch)
          (int_mul (int_sub (int_sub h 1) loopy) srcpitch + 1 * w - 1 * 1)) dstpix
      else if bool_decide (Bpp = 2) then
        rows (λ loopy, reverse_row w (copy_uint be 2 srcpix)
          (int_mul loopy dstpitch)
          (int_mul (int_sub (int_sub h 1) loopy) srcpitch + 2 * w - 2 * 1)) dstpix
      else if bool_decide (Bpp = 4) then
        rows (λ loopy, reverse_row w (copy_uint be 4 srcpix)
          (int_mul loopy dstpitch)
          (int_mul (int_sub (int_sub h 1) loopy) srcpitch + 4 * w - 4 * 1)) dstpix
      else if bool_decide (Bpp = 3) then
        rows (λ loopy, reverse_row w (copy_24 srcpix)
          (int_mul loopy dstpitch)
          (int_mul (int_sub (int_sub h 1) loopy) srcpitch + int_mul w 3 - 3)) dstpix
      else Some dstpix
    else
      if bool_decide (Bpp = 1) then
        rows (λ loopy, reverse_row w (copy_uint be 1 srcpix)
          (int_mul loopy dstpitch)
          (int_mul loopy srcpitch + 1 * w - 1 * 1)) dstpix
      else if bool_decide (Bpp = 2) then
        rows (λ loopy, reverse_row w (copy_uint be 2 srcpix)
          (int_mul loopy dstpitch)
          (int_mul loopy srcpitch + 2 * w - 2 * 1)) dstpix
      else if bool_decide (Bpp = 4) then
        rows (λ loopy, reverse_row w (copy_uint be 4 srcpix)
          (int_mul loopy dstpitch)
          (int_mul loopy srcpitch + 4 * w - 4 * 1)) dstpix
      else if bool_decide (Bpp = 3) then
        rows (λ loopy, reverse_row w (copy_24 srcpix)
          (int_mul loopy dstpitch)
          (int_mul loopy srcpitch + int_mul w 3 - 3)) dstpix
      else Some dstpix.

(** ** The SDL store *)

(** An [SDL_Surface*] is a key of the store; [mem_avail] is what [malloc]
    can still hand out and [sdl_error] the text behind [SDL_GetError]. *)
Definition loc := positive.

Record sdl_state := {
  surfaces : gmap positive SDL_Surface;
  mem_avail : Z;
  sdl_error : string
}.

(** ** Ruby exceptions and computations *)

Inductive rb_class := rb_eArgError | rb_eTypeError | eSDLError.

Inductive fmt_arg := FInt (n : Z) | FStr (s : string).

(** [rb_raise(cls, fmt, args...)]: the exception class, the format string
    and the values it is instantiated with. *)
Record exn := { exn_class : rb_class; exn_fmt : string; exn_args : list fmt_arg }.

Inductive outcome (A : Type) :=
| Ret (a : A)
| Raise (e : exn)
| Undefined.
Arguments Ret {A} a.
Arguments Raise {A} e.
Arguments Undefined {A}.

Definition M (A : Type) : Type := sdl_state → outcome A * sdl_state.

Definition ret {A} (a : A) : M A := λ σ, (Ret a, σ).

Definition bind {A B} (m : M A) (k : A → M B) : M B :=
  λ σ, match m σ with
       | (Ret a, σ') => k a σ'
       | (Raise e, σ') => (Raise e, σ')
       | (Undefined, σ') => (Undefined, σ')
       end.

Notation "'let*' x ':=' m 'in' k" := (bind m (λ x, k))
  (at level 10, x pattern, m at level 100, k at level 200).

Definition rb_raise {A} (cls : rb_class) (fmt : string) (args : list fmt_arg) : M A :=
  λ σ, (Raise {| exn_class := cls; exn_fmt := fmt; exn_args := args |}, σ).

Definition undefined {A} : M A := λ σ, (Undefined, σ).

Definition lift_option {A} (o : option A) : M A :=
  match o with Some a => ret a | None => undefined end.

(** Reading through a surface pointer. *)
Definition deref (p : loc) : M SDL_Surface :=
  λ σ, match surfaces σ !! p with
       | Some s => (Ret s, σ)
       | None => (Undefined, σ)
       end.

Definition update_surface (p : loc) (f : SDL_Surface → SDL_Surface) : M unit :=
  λ σ, match surfaces σ !! p with
       | Some s => (Ret tt, {| surfaces := <[p := f s]> (surfaces σ);
                               mem_avail := mem_avail σ;
                               sdl_error := sdl_error σ |})
       | None => (Undefined, σ)
       end.

Definition SDL_GetError : M string := λ σ, (Ret (sdl_error σ), σ).

(** ** SDL calls used by the allocator (SDL 1.2, software surfaces) *)

Definition SDL_SRCALPHA : Z := 0x00010000.

(** Rows are padded to a multiple of four bytes; 1-bit and 4-bit formats
    pack several pixels into a byte. *)
Definition SDL_CalculatePitch (w depth Bpp : Z) : Z :=
  let pitch := w * Bpp in
  let pitch := if bool_decide (depth = 1) then (pitch + 7) / 8
               else if bool_decide (depth = 4) then (pitch + 1) / 2
               else pitch in
  Z.land (pitch + 3) (-4).

Definition SDL_AllocFormat (depth Rm Gm Bm Am : Z) : SDL_PixelFormat :=
  {| palette := if bool_decide (depth <= 8)
                then Some (replicate (Z.to_nat (2 ^ depth)) 0) else None;
     BitsPerPixel := depth;
     BytesPerPixel := (depth + 7) / 8;
     Rmask := Rm; Gmask := Gm; Bmask := Bm; Amask := Am;
     colorkey := 0 |}.

(** A fresh zero-filled software surface, or [NULL] with the error text
    set when the pixel buffer cannot be allocated. *)
Definition SDL_CreateRGBSurface (flags width height depth Rm Gm Bm Am : Z)
  : M (option loc) :=
  λ σ,
  let fmt := SDL_AllocFormat depth Rm Gm Bm Am in
  let pitch := SDL_CalculatePitch width depth (BytesPerPixel fmt) in
  let size := height * pitch in
  if bool_decide (size <= mem_avail σ) then
    let p := fresh (dom (surfaces σ)) in
    let s := {| surf_flags := if bool_decide (Am = 0) then 0 else SDL_SRCALPHA;
                surf_format := fmt;
                surf_w := width; surf_h := height; surf_pitch := pitch;
                surf_pixels := replicate (Z.to_nat size) Byte.x00 |} in
    (Ret (Some p), {| surfaces := <[p := s]> (surfaces σ);
                      mem_avail := mem_avail σ - size;
                      sdl_error := sdl_error σ |})
  else
    (Ret None, {| surfaces := surfaces σ; mem_avail := mem_avail σ;
                  sdl_error := "Out of memory" |}).

(** [SDL_SetColors(s, colors, 0, ncolors)]: the leading palette entries
    are overwritten. *)
Definition SDL_SetColors (p : loc) (colors : list Z) : M unit :=
  update_surface p (λ s,
    let f := surf_format s in
    {| surf_flags := surf_flags s;
       surf_format :=
         {| palette := (λ old, colors ++ drop (length colors) old) <$> palette f;
            BitsPerPixel := BitsPerPixel f; BytesPerPixel := BytesPerPixel f;
            Rmask := Rmask f; Gmask := Gmask f; Bmask := Bmask f; Amask := Amask f;
            colorkey := colorkey f |};
       surf_w := surf_w s; surf_h := surf_h s; surf_pitch := surf_pitch s;
       surf_pixels := surf_pixels s |}).

(** [SDL_SetColorKey(s, flag, key)] with [SDL_SRCCOLORKEY] in [flag]. *)
Definition SDL_SetColorKey (p : loc) (flag key : Z) : M unit :=
  update_surface p (λ s,
    let f := surf_format s in
    {| surf_flags := Z.lor (surf_flags s) flag;
       surf_format :=
         {| palette := palette f;
            BitsPerPixel := BitsPerPixel f; BytesPerPixel := BytesPerPixel f;
            Rmask := Rmask f; Gmask := Gmask f; Bmask := Bmask f; Amask := Amask f;
            colorkey := key |};
       surf_w := surf_w s; surf_h := surf_h s; surf_pitch := surf_pitch s;
       surf_pixels := surf_pixels s |}).

(** Software surfaces need no locking: both calls leave the fields
    modelled here as they are. *)
Definition SDL_LockSurface (p : loc) : M unit := ret tt.
Definition SDL_UnlockSurface (p : loc) : M unit := ret tt.

(** ** The allocator *)

Definition unsupported_depth : string :=
  "unsupported Surface bit depth for transform".

Definition newsurf_fromsurf (surf : loc) (width height : Z) : M (option loc) :=
  let* s := deref surf in
  let fmt := surf_format s in
  if bool_decide (BytesPerPixel fmt <= 0 ∨ BytesPerPixel fmt > 4) then
    rb_raise eSDLError unsupported_depth []
  else
    let* newsurf := SDL_CreateRGBSurface (surf_flags s) width height
                      (BitsPerPixel fmt) (Rmask fmt) (Gmask fmt) (Bmask fmt)
                      (Amask fmt) in
    match newsurf with
    | None => let* msg := SDL_GetError in rb_raise eSDLError "%s" [FStr msg]
    | Some n =>
        let* _ :=
          match palette fmt with
          | Some colors =>
              if bool_decide (BytesPerPixel fmt = 1)
              then SDL_SetColors n colors else ret tt
          | None => ret tt
          end in
        let* _ :=
          if bool_decide (Z.land (surf_flags s) SDL_SRCCOLORKEY ≠ 0)
          then SDL_SetColorKey n
                 (Z.lor (Z.land (surf_flags s) SDL_RLEACCEL) SDL_SRCCOLORKEY)
                 (colorkey fmt)
          else ret tt in
        ret (Some n)
    end.

(** ** Ruby values *)

(** What the C compiler's [double] offers to this file: conversion from
    and to [long], and the test [d < 0], which converting a [long] does
    not change. *)
Class Double (double : Type) := {
  dbl_of_long : Z → double;
  dbl_to_long : double → Z;
  dbl_neg : double → bool;
  dbl_neg_of_long : ∀ n, dbl_neg (dbl_of_long n) = bool_decide (n < 0)
}.

(** A [VALUE] is a machine word: an immediate ([Qfalse], [Qtrue], [Qnil],
    a Fixnum) or the address of a heap object, given here together with
    the object it points to. *)
#[warnings="-register-all"] Inductive VALUE (double : Type) :=
| Qfalse
| Qtrue
| Qnil
| Fixnum (n : Z)
| RFloat (addr : Z) (d : double)
| RArray (addr : Z) (elts : list (VALUE double))
| RString (addr : Z) (s : string)
| RBignum (addr : Z) (n : Z)
| RData (addr : Z) (p : loc)
| RObject (addr : Z).
Arguments Qfalse {double}.
Arguments Qtrue {double}.
Arguments Qnil {double}.
Arguments Fixnum {double} n.
Arguments RFloat {double} addr d.
Arguments RArray {double} addr elts.
Arguments RString {double} addr s.
Arguments RBignum {double} addr n.
Arguments RData {double} addr p.
Arguments RObject {double} addr.

Inductive rb_type :=
| T_NIL | T_OBJECT | T_FLOAT | T_STRING | T_ARRAY | T_FIXNUM
| T_BIGNUM | T_DATA | T_TRUE | T_FALSE.

(** What an entry point hands back to the interpreter: [Qnil], a new
    Surface object wrapping [dst] ([Data_Wrap_Struct]), or a new two-element
    Array ([rb_ary_new3(2, INT2NUM(w), INT2NUM(h))]). *)
Inductive rb_ret :=
| RetNil
| RetSurface (dst : loc)
| RetSize (dstw dsth : Z).

Section Ruby.
Context {double : Type} `{Double double}.

(** The word itself: [Qfalse] is 0, [Qtrue] 2, [Qnil] 4, [INT2FIX(n)] is
    [(n << 1) | 1]. *)
Definition VALUE_bits (v : VALUE double) : Z :=
  match v with
  | Qfalse => 0
  | Qtrue => 2
  | Qnil => 4
  | Fixnum n => Z.lor (Z.shiftl n 1) 1
  | RFloat a _ | RArray a _ | RString a _ | RBignum a _ | RData a _
  | RObject a => a
  end.

(** [int x = v;] for a [VALUE v]. *)
Definition VALUE_to_int (v : VALUE double) : Z := wrap_int (VALUE_bits v).

Definition TYPE (v : VALUE double) : rb_type :=
  match v with
  | Qfalse => T_FALSE
  | Qtrue => T_TRUE
  | Qnil => T_NIL
  | Fixnum _ => T_FIXNUM
  | RFloat _ _ => T_FLOAT
  | RArray _ _ => T_ARRAY
  | RString _ _ => T_STRING
  | RBignum _ _ => T_BIGNUM
  | RData _ _ => T_DATA
  | RObject _ => T_OBJECT
  end.

Definition is_type (t : rb_type) (v : VALUE double) : bool :=
  match TYPE v, t with
  | T_NIL, T_NIL | T_OBJECT, T_OBJECT | T_FLOAT, T_FLOAT
  | T_STRING, T_STRING | T_ARRAY, T_ARRAY | T_FIXNUM, T_FIXNUM
  | T_BIGNUM, T_BIGNUM | T_DATA, T_DATA | T_TRUE, T_TRUE
  | T_FALSE, T_FALSE => true
  | _, _ => false
  end.

Definition FIXNUM_P (v : VALUE double) : bool :=
  match v with Fixnum _ => true | _ => false end.

(** [argv[i]]; past [argc] the word read is indeterminate, and the entry
    points never use it there. *)
Definition argv_at (argv : list (VALUE double)) (i : nat) : VALUE double :=
  match argv !! i with Some v => v | None => Qnil end.

(** [rb_ary_elt]: [Qnil] outside the array. *)
Definition rb_ary_elt (elts : list (VALUE double)) (offset : Z) : VALUE double :=
  if bool_decide (offset < 0 ∨ Z.of_nat (length elts) <= offset) then Qnil
  else argv_at elts (Z.to_nat offset).

(** [rb_ary_entry] reads the array header without a type check. *)
Definition rb_ary_entry (ary : VALUE double) (offset : Z) : M (VALUE double) :=
  match ary with
  | RArray _ elts =>
      let offset := if bool_decide (offset < 0)
                    then offset + Z.of_nat (length elts) else offset in
      ret (rb_ary_elt elts offset)
  | _ => undefined
  end.

Definition rb_obj_classname (v : VALUE double) : string :=
  match v with
  | Qfalse => "false"
  | Qtrue => "true"
  | Qnil => "nil"
  | Fixnum _ => "Fixnum"
  | RFloat _ _ => "Float"
  | RArray _ _ => "Array"
  | RString _ _ => "String"
  | RBignum _ _ => "Bignum"
  | RData _ _ => "Data"
  | RObject _ => "Object"
  end.

(** [NUM2DBL]: Fixnum, Float and Bignum convert; [rb_num2dbl] refuses a
    String and [nil] itself, [rb_Float] the values that have no [to_f]. *)
Definition NUM2DBL (v : VALUE double) : M double :=
  match v with
  | Fixnum n => ret (dbl_of_long n)
  | RFloat _ d => ret d
  | RBignum _ n => ret (dbl_of_long n)
  | RString _ _ =>
      rb_raise rb_eTypeError "no implicit conversion to float from string" []
  | Qnil =>
      rb_raise rb_eTypeError "no implicit conversion to float from nil" []
  | _ => rb_raise rb_eTypeError "can't convert %s into %s"
           [FStr (rb_obj_classname v); FStr "Float"]
  end.

(** [NUM2INT]: Fixnum, Float and Bignum convert, the rest has no
    [to_int]. *)
Definition NUM2INT (v : VALUE double) : M Z :=
  match v with
  | Fixnum n => ret n
  | RFloat _ d => ret (dbl_to_long d)
  | RBignum _ n => ret n
  | Qnil =>
      rb_raise rb_eTypeError "no implicit conversion from nil to integer" []
  | _ => rb_raise rb_eTypeError "can't convert %s into %s"
           [FStr (rb_obj_classname v); FStr "Integer"]
  end.

(** [Data_Get_Struct(self, SDL_Surface, p)]: [Check_Type(self, T_DATA)],
    then the wrapped pointer. *)
Definition Data_Get_Struct (self : VALUE double) : M loc :=
  match self with
  | RData _ p => ret p
  | _ => rb_raise rb_eTypeError "wrong argument type %s (expected %s)"
           [FStr (rb_obj_classname self); FStr "Data"]
  end.
End Ruby.

(** ** The SDL_gfx resampler *)

(** The build of SDL_gfx the extension is compiled against: whether it
    has the XY entry points ([HAVE_ROTOZOOMXY]), its version, and its
    functions.  Their resampling is outside this file; being C functions
    they return, with a surface or [NULL], and raise nothing. *)
Record SDL_gfx (double : Type) := {
  HAVE_ROTOZOOMXY : bool;
  SDL_GFXPRIMITIVES_MAJOR : Z;
  SDL_GFXPRIMITIVES_MINOR : Z;
  SDL_GFXPRIMITIVES_MICRO : Z;
  rotozoomSurface :
    loc → double → double → Z → sdl_state → option loc * sdl_state;
  rotozoomSurfaceXY :
    loc → double → double → double → Z → sdl_state → option loc * sdl_state;
  zoomSurface :
    loc → double → double → Z → sdl_state → option loc * sdl_state;
  rotozoomSurfaceSize : Z → Z → double → double → Z * Z;
  rotozoomSurfaceSizeXY : Z → Z → double → double → double → Z * Z;
  zoomSurfaceSize : Z → Z → double → double → Z * Z
}.
Arguments HAVE_ROTOZOOMXY {double} _.
Arguments SDL_GFXPRIMITIVES_MAJOR {double} _.
Arguments SDL_GFXPRIMITIVES_MINOR {double} _.
Arguments SDL_GFXPRIMITIVES_MICRO {double} _.
Arguments rotozoomSurface {double} _ _ _ _ _.
Arguments rotozoomSurfaceXY {double} _ _ _ _ _ _.
Arguments zoomSurface {double} _ _ _ _ _.
Arguments rotozoomSurfaceSize {double} _ _ _ _ _.
Arguments rotozoomSurfaceSizeXY {double} _ _ _ _ _ _.
Arguments zoomSurfaceSize {double} _ _ _ _ _.

Definition wrong_zoom_type : string :=
  "wrong zoom factor type (expected Array or Numeric)".

Definition no_xy_zoom : string :=
  "Separate X/Y rotozoom scale factors is not supported by your version of SDL_gfx (%d,%d,%d). Please upgrade to 2.0.13 or later.".

Definition no_negative_zoom : string :=
  "Negative rotozoom scale factor is not supported by your version of SDL_gfx (%d,%d,%d). Please upgrade to 2.0.13 or later.".

(** ** The entry points *)

Section Transform.
Context {double : Type} `{Double double}.
Variable gfx : SDL_gfx double.
Variable big_endian : bool.

Definition gfx_version : list fmt_arg :=
  [FInt (SDL_GFXPRIMITIVES_MAJOR gfx); FInt (SDL_GFXPRIMITIVES_MINOR gfx);
   FInt (SDL_GFXPRIMITIVES_MICRO gfx)].

(** A call into SDL_gfx. *)
Definition call_gfx {A} (f : sdl_state → A * sdl_state) : M A :=
  λ σ, let '(a, σ') := f σ in (Ret a, σ').

(** [if(dst == NULL) rb_raise(...); return Data_Wrap_Struct(...dst);] *)
Definition wrap_or_raise (dst : option loc) : M rb_ret :=
  match dst with
  | None =>
      let* msg := SDL_GetError in
      rb_raise eSDLError "Could not rotozoom surface: %s" [FStr msg]
  | Some d => ret (RetSurface d)
  end.

Definition rbgm_transform_rotozoom (argv : list (VALUE double)) (self : VALUE double)
  : M rb_ret :=
  let argc := Z.of_nat (length argv) in
  if bool_decide (argc < 3) then
    rb_raise rb_eArgError "wrong number of arguments (%d for 3)" [FInt argc]
  else
    let* src := Data_Get_Struct self in
    let* angle := NUM2DBL (argv_at argv 0) in
    let smooth := if bool_decide (argc > 2)
                  then VALUE_to_int (argv_at argv 2) else 0 in
    if is_type T_ARRAY (argv_at argv 1) then
      if HAVE_ROTOZOOMXY gfx then
        let* e0 := rb_ary_entry (argv_at argv 1) 0 in
        let* zoomx := NUM2DBL e0 in
        let* e1 := rb_ary_entry (argv_at argv 1) 1 in
        let* zoomy := NUM2DBL e1 in
        let* dst :=
          call_gfx (rotozoomSurfaceXY gfx src angle zoomx zoomy smooth) in
        wrap_or_raise dst
      else
        rb_raise eSDLError no_xy_zoom gfx_version
    else if FIXNUM_P (argv_at argv 1) || is_type T_FLOAT (argv_at argv 1) then
      let* zoomx := NUM2DBL (argv_at argv 1) in
      if negb (HAVE_ROTOZOOMXY gfx) && dbl_neg zoomx then
        rb_raise eSDLError no_negative_zoom gfx_version
      else
        let* dst := call_gfx (rotozoomSurface gfx src angle zoomx smooth) in
        wrap_or_raise dst
    else
      rb_raise rb_eArgError wrong_zoom_type [].

Definition rbgm_transform_rzsize (argv : list (VALUE double)) : M rb_ret :=
  let argc := Z.of_nat (length argv) in
  if bool_decide (argc < 3) then
    rb_raise rb_eArgError "wrong number of arguments (%d for 3)" [FInt argc]
  else
    let* e := rb_ary_entry (argv_at argv 0) 0 in
    let* w := NUM2INT e in
    let* e := rb_ary_entry (argv_at argv 0) 0 in
    let* h := NUM2INT e in
    let* angle := NUM2DBL (argv_at argv 1) in
    if is_type T_ARRAY (argv_at argv 2) then
      if HAVE_ROTOZOOMXY gfx then
        let* e0 := rb_ary_entry (argv_at argv 1) 0 in
        let* zoomx := NUM2DBL e0 in
        let* e1 := rb_ary_entry (argv_at argv 1) 1 in
        let* zoomy := NUM2DBL e1 in
        let '(dstw, dsth) := rotozoomSurfaceSizeXY gfx w h angle zoomx zoomy in
        ret (RetSize dstw dsth)
      else
        ret RetNil
    else if FIXNUM_P (argv_at argv 1) || is_type T_FLOAT (argv_at argv 1) then
      let* zoomx := NUM2DBL (argv_at argv 1) in
      if negb (HAVE_ROTOZOOMXY gfx) && dbl_neg zoomx then
        ret RetNil
      else
        let '(dstw, dsth) := rotozoomSurfaceSize gfx w h angle zoomx in
        ret (RetSize dstw dsth)
    else
      rb_raise rb_eArgError wrong_zoom_type [].

(** The zoom factors of [zoom] and [zoom_size], read from [zoom]. *)
Definition zoom_factors (zoom : VALUE double) : M (double * double) :=
  if is_type T_ARRAY zoom then
    let* e0 := rb_ary_entry zoom 0 in
    let* zoomx := NUM2DBL e0 in
    let* e1 := rb_ary_entry zoom 1 in
    let* zoomy := NUM2DBL e1 in
    ret (zoomx, zoomy)
  else if FIXNUM_P zoom || is_type T_FLOAT zoom then
    let* zoomx := NUM2DBL zoom in
    ret (zoomx, zoomx)
  else
    rb_raise rb_eArgError wrong_zoom_type [].

Definition rbgm_transform_zoom (argv : list (VALUE double)) (self : VALUE double)
  : M rb_ret :=
  let argc := Z.of_nat (length argv) in
  if bool_decide (argc < 2) then
    rb_raise rb_eArgError "wrong number of arguments (%d for 1)" [FInt argc]
  else
    let* src := Data_Get_Struct self in
    let* zoom := zoom_factors (argv_at argv 0) in
    let '(zoomx, zoomy) := zoom in
    let smooth := if bool_decide (argc > 1)
                  then VALUE_to_int (argv_at argv 1) else 0 in
    let* dst := call_gfx (zoomSurface gfx src zoomx zoomy smooth) in
    wrap_or_raise dst.

Definition rbgm_transform_zoomsize (argv : list (VALUE double)) : M rb_ret :=
  let argc := Z.of_nat (length argv) in
  if bool_decide (argc < 3) then
    rb_raise rb_eArgError "wrong number of arguments (%d for 3)" [FInt argc]
  else
    let* e := rb_ary_entry (argv_at argv 0) 0 in
    let* w := NUM2INT e in
    let* e := rb_ary_entry (argv_at argv 0) 0 in
    let* h := NUM2INT e in
    let* zoom := zoom_factors (argv_at argv 1) in
    let '(zoomx, zoomy) := zoom in
    let '(dstw, dsth) := zoomSurfaceSize gfx w h zoomx zoomy in
    ret (RetSize dstw dsth).

Definition rbgm_transform_flip (argv : list (VALUE double)) (self : VALUE double)
  : M rb_ret :=
  let argc := Z.of_nat (length argv) in
  let xaxis := VALUE_to_int (argv_at argv 0) in
  let yaxis := VALUE_to_int (argv_at argv 1) in
  if bool_decide (argc < 2) then
    rb_raise rb_eArgError "wrong number of arguments (%d for 2)" [FInt argc]
  else
    let* surf := Data_Get_Struct self in
    let* s := deref surf in
    let* newsurf := newsurf_fromsurf surf (surf_w s) (surf_h s) in
    match newsurf with
    | None => ret RetNil
    | Some n =>
        let* _ := SDL_LockSurface n in
        let* ns := deref n in
        let* px := lift_option (flip_pixels big_endian s ns xaxis yaxis) in
        let* _ := update_surface n (λ ns, set_pixels ns px) in
        let* _ := SDL_UnlockSurface n in
        ret (RetSurface n)
    end.
End Transform.

(** ** Specifications used by the proofs *)

(** What one step of an inner loop does for pixels of [sz] bytes: it moves
    the [sz] bytes at [src] to [dst], leaves the rest of the destination
    alone, and moves [dst] forward and [src] backward by one pixel. *)
Definition pixel_step_ok (sz : Z) (srcpix : list byte) (step : cursor → option cursor)
  : Prop :=
  ∀ c, 0 <= cur_src c → cur_src c + sz <= Z.of_nat (length srcpix) →
       0 <= cur_dst c → cur_dst c + sz <= Z.of_nat (length (cur_mem c)) →
       ∃ m', step c = Some {| cur_dst := cur_dst c + sz;
                              cur_src := cur_src c - sz; cur_mem := m' |}
             ∧ length m' = length (cur_mem c)
             ∧ ∀ i, peek m' i =
                    if bool_decide (cur_dst c <= i < cur_dst c + sz)
                    then peek srcpix (cur_src c + (i - cur_dst c))
                    else peek (cur_mem c) i.


(** What the body of a row loop does at row [y] of a destination of [L]
    bytes with pitch [dp]: the [w] pixels of the row receive the source
    bytes at [srcoff y x k], and no byte outside the row's pixels changes. *)
Definition row_ok (h w sz dp : Z) (L : nat) (srcpix : list byte)
    (srcoff : Z → Z → Z → Z) (body : Z → list byte → option (list byte)) : Prop :=
  ∀ y m, 0 <= y < h → length m = L →
    ∃ m', body y m = Some m' ∧ length m' = L
          ∧ (∀ x k, 0 <= x < w → 0 <= k < sz →
                    peek m' (y * dp + x * sz + k) = peek srcpix (srcoff y x k))
          ∧ (∀ i, ¬ (y * dp <= i < y * dp + w * sz) → peek m' i = peek m i).

(** The byte offset of byte [k] of pixel [(x, y)] in a surface. *)
Definition pixel_offset (s : SDL_Surface) (y x k : Z) : Z :=
  y * surf_pitch s + x * BytesPerPixel (surf_format s) + k.

(** The source pixel that lands on destination pixel [(x, y)]. *)
Definition flipped_x (xflip : bool) (s : SDL_Surface) (x : Z) : Z :=
  if xflip then surf_w s - 1 - x else x.

Definition flipped_y (yflip : bool) (s : SDL_Surface) (y : Z) : Z :=
  if yflip then surf_h s - 1 - y else y.

(** Pixel [(x, y)] lies on the surface and [k] inside the pixel. *)
Definition in_surface (s : SDL_Surface) (y x k : Z) : Prop :=
  0 <= y < surf_h s ∧ 0 <= x < surf_w s ∧ 0 <= k < BytesPerPixel (surf_format s).

(** Offset [i] belongs to no pixel of a [w]-pixel, [h]-row surface whose
    rows are [dp] bytes apart: it is row padding or lies past the rows. *)
Definition is_padding (h w sz dp : Z) (i : Z) : Prop :=
  ∀ y, 0 <= y < h → ¬ (y * dp <= i < y * dp + w * sz).

(** What the kernel needs of its two surfaces: a supported pixel size,
    rows that fit the pitch of either surface, buffers that hold all rows,
    and row offsets within [int]. *)
Definition kernel_pre (surf newsurf : SDL_Surface) : Prop :=
  let sz := BytesPerPixel (surf_format surf) in
  0 <= surf_w surf ∧ 0 <= surf_h surf <= INT_MAX ∧ 1 <= sz <= 4
  ∧ surf_w surf * sz <= surf_pitch surf
  ∧ surf_w surf * sz <= surf_pitch newsurf
  ∧ surf_h surf * surf_pitch surf <= INT_MAX
  ∧ surf_h surf * surf_pitch newsurf <= INT_MAX
  ∧ surf_h surf * surf_pitch surf <= Z.of_nat (length (surf_pixels surf))
  ∧ surf_h surf * surf_pitch newsurf <= Z.of_nat (length (surf_pixels newsurf)).

(** ** Well-formed surfaces *)

(** The pitch SDL gives to a surface allocated with the width and format
    of [s]. *)
Definition twin_pitch (s : SDL_Surface) : Z :=
  SDL_CalculatePitch (surf_w s) (BitsPerPixel (surf_format s))
    (BytesPerPixel (surf_format s)).

(** A surface of whole-byte pixels as SDL keeps it: the pixel size follows
    from the depth, a row fits the pitch, the buffer holds all rows, and
    the row offsets of the surface and of its twin are within [int]. *)
Definition wf_surface (s : SDL_Surface) : Prop :=
  let fmt := surf_format s in
  0 <= surf_w s ∧ 0 <= surf_h s <= INT_MAX
  ∧ 8 <= BitsPerPixel fmt <= 32
  ∧ BytesPerPixel fmt = (BitsPerPixel fmt + 7) / 8
  ∧ surf_w s * BytesPerPixel fmt <= surf_pitch s
  ∧ surf_h s * surf_pitch s <= INT_MAX
  ∧ surf_h s * twin_pitch s <= INT_MAX
  ∧ surf_h s * surf_pitch s <= Z.of_nat (length (surf_pixels s)).

(** [n] is a surface that [σ'] has and [σ] had not, and nothing else
    differs between the two stores. *)
Definition allocated (σ σ' : sdl_state) (n : loc) (ns : SDL_Surface) : Prop :=
  surfaces σ !! n = None ∧ surfaces σ' = <[n := ns]> (surfaces σ).

(** [ns] is [s] mirrored: same size and depth, the pitch of a twin, and
    every byte of every pixel equal to that byte of the mirrored pixel of
    [s]. *)
Definition flipped_copy (xflip yflip : bool) (s ns : SDL_Surface) : Prop :=
  surf_w ns = surf_w s ∧ surf_h ns = surf_h s
  ∧ BitsPerPixel (surf_format ns) = BitsPerPixel (surf_format s)
  ∧ BytesPerPixel (surf_format ns) = BytesPerPixel (surf_format s)
  ∧ surf_pitch ns = twin_pitch s
  ∧ Z.of_nat (length (surf_pixels ns)) = surf_h s * twin_pitch s
  ∧ ∀ y x k, in_surface s y x k →
      ∃ b, peek (surf_pixels ns) (pixel_offset ns y x k) = Some b
           ∧ peek (surf_pixels s)
               (pixel_offset s (flipped_y yflip s y) (flipped_x xflip s x) k)
             = Some b.

(** The truth value the kernel gives to an axis argument. *)
Definition axis_set {double : Type} (v : VALUE double) : bool :=
  bool_decide (VALUE_to_int v ≠ 0).

(** ** Frames *)

(** A computation keeps every surface the store has: whatever it returns,
    each surface of the store before it is in the store after it, with
    every field as it was. *)
Definition keeps_surfaces (f : sdl_state → sdl_state) : Prop :=
  ∀ σ p s, surfaces σ !! p = Some s → surfaces (f σ) !! p = Some s.

Definition frame {A} (m : M A) : Prop := keeps_surfaces (λ σ, (m σ).2).

(** The contract of the resampler that the dispatch relies on: it reads
    its source and builds a surface of its own. *)
Definition gfx_frame {double : Type} (gfx : SDL_gfx double) : Prop :=
  (∀ src a z sm, keeps_surfaces (λ σ, (rotozoomSurface gfx src a z sm σ).2))
  ∧ (∀ src a zx zy sm,
       keeps_surfaces (λ σ, (rotozoomSurfaceXY gfx src a zx zy sm σ).2))
  ∧ (∀ src zx zy sm, keeps_surfaces (λ σ, (zoomSurface gfx src zx zy sm σ).2)).

(** ** Scenario surfaces *)

Definition rb_bool {double : Type} (b : bool) : VALUE double :=
  if b then Qtrue else Qfalse.

Definition is_Qfalse {double : Type} (v : VALUE double) : bool :=
  match v with Qfalse => true | _ => false end.

(** A heap object lives at a non-null address of the 32-bit address space
    ([VALUE] and [int] have the same width). *)
Definition valid_VALUE {double : Type} (v : VALUE double) : Prop :=
  match v with
  | Qfalse | Qtrue | Qnil | Fixnum _ => True
  | RFloat a _ | RArray a _ | RString a _ | RBignum a _ | RData a _
  | RObject a => 0 < a < 2 ^ 32
  end.

(** The reference converts to an [int] that is not zero.  [true], [nil]
    and the Fixnums always do, and [false] is the value the test looks
    for; the reference of an object is its address, of which the
    conversion keeps the low 32 bits: these are not all zero.  That holds
    for every object where [VALUE] is as wide as [int], and fails where it
    is wider for an object at a multiple of 2^32. *)
Definition low_word_set {double : Type} (v : VALUE double) : Prop :=
  match v with
  | Qfalse | Qtrue | Qnil | Fixnum _ => True
  | RFloat a _ | RArray a _ | RString a _ | RBignum a _ | RData a _
  | RObject a => a mod 2 ^ 32 ≠ 0
  end.

(** Doubles with integral values are all the scenarios need. *)
#[export] Instance Z_double : Double Z :=
  {| dbl_of_long := λ n, n; dbl_to_long := λ d, d;
     dbl_neg := λ d, bool_decide (d < 0);
     dbl_neg_of_long := λ _, eq_refl |}.

Definition words (be : bool) (ws : list Z) : list byte :=
  concat (map (encode_uint be 4) ws).

Definition rgb_surface (w h depth pitch : Z) (px : list byte) : SDL_Surface :=
  {| surf_flags := 0;
     surf_format := SDL_AllocFormat depth 0xff0000 0x00ff00 0x0000ff 0;
     surf_w := w; surf_h := h; surf_pitch := pitch; surf_pixels := px |}.

(** A store that holds [s] at pointer 1 and has 64 KiB to allocate. *)
Definition store_of (s : SDL_Surface) : sdl_state :=
  {| surfaces := {[ 1%positive := s ]}; mem_avail := 65536; sdl_error := "" |}.

(** The Surface object that wraps pointer 1. *)
Definition self_1 : VALUE Z := RData 0x1000 1%positive.

(** The first [w * BytesPerPixel] bytes of row [y], and those of all rows
    in order: the pixels without the row padding. *)
Definition row_bytes (s : SDL_Surface) (y : nat) : list byte :=
  take (Z.to_nat (surf_w s * BytesPerPixel (surf_format s)))
       (drop (Z.to_nat (Z.of_nat y * surf_pitch s)) (surf_pixels s)).

Definition used_bytes (s : SDL_Surface) : list byte :=
  concat (map (row_bytes s) (seq 0 (Z.to_nat (surf_h s)))).

(** [flip(horz, vert)] on [s] alone in the store: the used bytes of the
    surface returned. *)
Definition flip_bytes (be : bool) (s : SDL_Surface) (horz vert : bool)
  : option (list byte) :=
  match rbgm_transform_flip be [rb_bool horz; rb_bool vert] self_1 (store_of s) with
  | (Ret (RetSurface n), σ') => used_bytes <$> surfaces σ' !! n
  | _ => None
  end.

(** [flip(a, b)] on [s] alone in the store, for any two arguments: the
    surface returned. *)
Definition flip_result (be : bool) (s : SDL_Surface) (a b : VALUE Z)
  : option SDL_Surface :=
  match rbgm_transform_flip be [a; b] self_1 (store_of s) with
  | (Ret (RetSurface n), σ') => surfaces σ' !! n
  | _ => None
  end.

(** ** A test double for SDL_gfx *)

(** It scales the size by the magnitude of the zoom factors, ignores the
    angle, and returns a fresh blank 32-bit surface for any source it is
    given, or [NULL] when memory runs out. *)
Definition stub_size (w h zx zy : Z) : Z * Z :=
  (Z.max 1 (w * Z.abs zx), Z.max 1 (h * Z.abs zy)).

Definition stub_zoom (src : loc) (zx zy : Z) : sdl_state → option loc * sdl_state :=
  λ σ, match surfaces σ !! src with
       | None => (None, σ)
       | Some s =>
           let '(w, h) := stub_size (surf_w s) (surf_h s) zx zy in
           match SDL_CreateRGBSurface 0 w h 32 0xff0000 0x00ff00 0x0000ff
                   0xff000000 σ with
           | (Ret dst, σ') => (dst, σ')
           | (_, σ') => (None, σ')
           end
       end.

Definition stub_gfx (xy : bool) : SDL_gfx Z :=
  {| HAVE_ROTOZOOMXY := xy;
     SDL_GFXPRIMITIVES_MAJOR := 2;
     SDL_GFXPRIMITIVES_MINOR := 0;
     SDL_GFXPRIMITIVES_MICRO := if xy then 13 else 12;
     rotozoomSurface := λ src _ zoom _, stub_zoom src zoom zoom;
     rotozoomSurfaceXY := λ src _ zx zy _, stub_zoom src zx zy;
     zoomSurface := λ src zx zy _, stub_zoom src zx zy;
     rotozoomSurfaceSize := λ w h _ zoom, stub_size w h zoom zoom;
     rotozoomSurfaceSizeXY := λ w h _ zx zy, stub_size w h zx zy;
     zoomSurfaceSize := λ w h zx zy, stub_size w h zx zy |}.

(** The exception of the allocator's depth check. *)
Definition UnsupportedDepth : exn :=
  {| exn_class := eSDLError; exn_fmt := unsupported_depth; exn_args := [] |}.

(** A computation that never raises [e]. *)
Definition never_raises {A} (e : exn) (m : M A) : Prop :=
  ∀ σ, (m σ).1 ≠ Raise e.

(** The same SDL_gfx built without the XY entry points (before 2.0.13). *)
Definition without_xy {double : Type} (gfx : SDL_gfx double) : SDL_gfx double :=
  {| HAVE_ROTOZOOMXY := false;
     SDL_GFXPRIMITIVES_MAJOR := SDL_GFXPRIMITIVES_MAJOR gfx;
     SDL_GFXPRIMITIVES_MINOR := SDL_GFXPRIMITIVES_MINOR gfx;
     SDL_GFXPRIMITIVES_MICRO := SDL_GFXPRIMITIVES_MICRO gfx;
     rotozoomSurface := rotozoomSurface gfx;
     rotozoomSurfaceXY := rotozoomSurfaceXY gfx;
     zoomSurface := zoomSurface gfx;
     rotozoomSurfaceSize := rotozoomSurfaceSize gfx;
     rotozoomSurfaceSizeXY := rotozoomSurfaceSizeXY gfx;
     zoomSurfaceSize := zoomSurfaceSize gfx |}.

(** [rb_raise(rb_eArgError, "wrong number of arguments (%d for n)", argc)] *)
Definition wrong_argc (fmt : string) (argc : Z) : exn :=
  {| exn_class := rb_eArgError; exn_fmt := fmt; exn_args := [FInt argc] |}.

(** A 1x1 surface of 8 bytes per pixel. *)
Definition surface_64bit : SDL_Surface :=
  rgb_surface 1 1 64 8 (replicate 8 Byte.x00).

(** The source of scenarios S1 to S3, little-endian, and a 2x1 surface of
    packed 24-bit pixels. *)
Definition surface_4x2 : SDL_Surface :=
  rgb_surface 4 2 32 16 (words false [1; 2; 3; 4; 5; 6; 7; 8]).

Definition surface_2x1 : SDL_Surface :=
  rgb_surface 2 1 24 6
    [Byte.x10; Byte.x11; Byte.x12; Byte.x20; Byte.x21; Byte.x22].

(** ** Further specifications *)

(** What [zoom] and [rotozoom] make of the resampler's answer: the new
    Surface, or an SDLError with the text of [SDL_GetError]. *)
Definition surface_or_error (r : option loc * sdl_state) : outcome rb_ret * sdl_state :=
  match r with
  | (Some dst, σ') => (Ret (RetSurface dst), σ')
  | (None, σ') =>
      (Raise {| exn_class := eSDLError;
                exn_fmt := "Could not rotozoom surface: %s";
                exn_args := [FStr (sdl_error σ')] |}, σ')
  end.

(** The zoom argument is of a type the dispatch accepts. *)
Definition zoom_accepted {double : Type} (zoom : VALUE double) : bool :=
  is_type T_ARRAY zoom || FIXNUM_P zoom || is_type T_FLOAT zoom.

Definition WrongZoomType : exn :=
  {| exn_class := rb_eArgError; exn_fmt := wrong_zoom_type; exn_args := [] |}.

Definition NoFloatFromNil : exn :=
  {| exn_class := rb_eTypeError;
     exn_fmt := "no implicit conversion to float from nil"; exn_args := [] |}.

(** The state after a failed allocation. *)
Definition out_of_memory (σ : sdl_state) : sdl_state :=
  {| surfaces := surfaces σ; mem_avail := mem_avail σ;
     sdl_error := "Out of memory" |}.

(** An 8-bit surface with a palette of four colours and a colour key. *)
Definition surface_paletted : SDL_Surface :=
  {| surf_flags := Z.lor SDL_SRCCOLORKEY SDL_RLEACCEL;
     surf_format :=
       {| palette := Some [0xff0000; 0x00ff00; 0x0000ff; 0xffffff];
          BitsPerPixel := 8; BytesPerPixel := 1;
          Rmask := 0; Gmask := 0; Bmask := 0; Amask := 0; colorkey := 3 |};
     surf_w := 3; surf_h := 2; surf_pitch := 4;
     surf_pixels := [Byte.x00; Byte.x01; Byte.x02; Byte.xff;
                     Byte.x03; Byte.x02; Byte.x01; Byte.xff] |}.

(** A store with [s] at pointer 1 and [mem] bytes to allocate. *)
Definition store_with (s : SDL_Surface) (mem : Z) : sdl_state :=
  {| surfaces := {[ 1%positive := s ]}; mem_avail := mem; sdl_error := "" |}.

(** What the allocator copies from its model: depth, masks, the palette
    of an 8-bit surface, and the colour key when the model has one. *)
Definition twin_format (s ns : SDL_Surface) : Prop :=
  let f := surf_format s in
  let nf := surf_format ns in
  BitsPerPixel nf = BitsPerPixel f
  ∧ Rmask nf = Rmask f ∧ Gmask nf = Gmask f
  ∧ Bmask nf = Bmask f ∧ Amask nf = Amask f
  ∧ (∀ colors, palette f = Some colors → BytesPerPixel f = 1 →
       BitsPerPixel f <= 8 →
       palette nf
       = Some (colors ++ drop (length colors)
                           (replicate (Z.to_nat (2 ^ BitsPerPixel f)) 0)))
  ∧ (Z.land (surf_flags s) SDL_SRCCOLORKEY ≠ 0 →
       colorkey nf = colorkey f ∧ Z.land (surf_flags ns) SDL_SRCCOLORKEY ≠ 0)
  ∧ (Z.land (surf_flags s) SDL_SRCCOLORKEY = 0 → colorkey nf = 0).

(** The pixels of [surface_2x1] in rows of pitch 8, with padding that is
    not zero. *)
Definition surface_2x1_padded : SDL_Surface :=
  rgb_surface 2 1 24 8
    [Byte.x10; Byte.x11; Byte.x12; Byte.x20; Byte.x21; Byte.x22;
     Byte.xff; Byte.xff].

(** * Properties *)

(** ** C integers *)

Lemma wrap_int_small (x : Z) : - 2 ^ 31 <= x <= INT_MAX → wrap_int x = x.
Proof.
  unfold wrap_int, INT_MAX. intros Hx.
  rewrite Z.mod_small by lia. lia.
Qed.

Lemma int_mul_exact (a b : Z) : - 2 ^ 31 <= a * b <= INT_MAX → int_mul a b = a * b.
Proof. apply wrap_int_small. Qed.

Lemma int_sub_exact (a b : Z) : - 2 ^ 31 <= a - b <= INT_MAX → int_sub a b = a - b.
Proof. apply wrap_int_small. Qed.

(** ** Pixel memory *)

Lemma peek_lookup (m : list byte) (i : nat) : peek m (Z.of_nat i) = m !! i.
Proof.
  unfold peek. rewrite bool_decide_eq_true_2 by lia. by rewrite Nat2Z.id.
Qed.

Lemma peek_neg (m : list byte) (i : Z) : i < 0 → peek m i = None.
Proof. intros Hi. unfold peek. by rewrite bool_decide_eq_false_2 by lia. Qed.

Lemma peek_ext (m1 m2 : list byte) :
  (∀ i, peek m1 i = peek m2 i) → m1 = m2.
Proof.
  intros Hp. apply list_eq. intros i. rewrite <- !peek_lookup. apply Hp.
Qed.

Lemma peek_is_Some (m : list byte) (i : Z) :
  0 <= i < Z.of_nat (length m) → is_Some (peek m i).
Proof.
  intros Hi. unfold peek. rewrite bool_decide_eq_true_2 by lia.
  apply lookup_lt_is_Some. lia.
Qed.

Lemma load_bytes_Some (m : list byte) (p : Z) (n : nat) :
  0 <= p → p + Z.of_nat n <= Z.of_nat (length m) →
  load_bytes m p n = Some (take n (drop (Z.to_nat p) m)).
Proof.
  intros H0 H1. unfold load_bytes. by rewrite bool_decide_eq_true_2.
Qed.

Lemma load_bytes_length (m bs : list byte) (p : Z) (n : nat) :
  load_bytes m p n = Some bs → length bs = n.
Proof.
  unfold load_bytes. case_bool_decide as Hb; [|done].
  intros [= <-]. rewrite length_take, length_drop. lia.
Qed.

Lemma load_bytes_lookup (m bs : list byte) (p : Z) (n j : nat) :
  load_bytes m p n = Some bs → (j < n)%nat →
  bs !! j = peek m (p + Z.of_nat j).
Proof.
  unfold load_bytes. case_bool_decide as Hb; [|done].
  intros [= <-] Hj. rewrite lookup_take_lt by done. rewrite lookup_drop.
  replace (p + Z.of_nat j) with (Z.of_nat (Z.to_nat p + j)) by lia.
  by rewrite peek_lookup.
Qed.

Lemma store_bytes_length (m m' bs : list byte) (p : Z) :
  store_bytes m p bs = Some m' → length m' = length m.
Proof.
  unfold store_bytes. case_bool_decide as Hb; [|done].
  intros [= <-]. rewrite !length_app, length_take, length_drop. lia.
Qed.

Lemma store_bytes_Some (m bs : list byte) (p : Z) :
  0 <= p → p + Z.of_nat (length bs) <= Z.of_nat (length m) →
  is_Some (store_bytes m p bs).
Proof.
  intros H0 H1. unfold store_bytes. rewrite bool_decide_eq_true_2 by done. eauto.
Qed.

(** After a store the bytes of the stored range are the new ones and every
    other byte is as before. *)
Lemma store_bytes_peek (m m' bs : list byte) (p i : Z) :
  store_bytes m p bs = Some m' →
  peek m' i =
    if bool_decide (p <= i < p + Z.of_nat (length bs))
    then bs !! Z.to_nat (i - p) else peek m i.
Proof.
  unfold store_bytes. case_bool_decide as Hb; [|done].
  intros [= <-]. destruct Hb as [H0 H1].
  destruct (decide (i < 0)) as [Hneg|Hpos].
  { rewrite !peek_neg by done. by rewrite bool_decide_eq_false_2 by lia. }
  unfold peek. rewrite bool_decide_eq_true_2 by lia.
  destruct (decide (i < p)) as [Hlt|Hge].
  - rewrite bool_decide_eq_false_2 by lia.
    rewrite lookup_app_l by (rewrite length_take; lia).
    rewrite lookup_take_lt by lia. done.
  - rewrite lookup_app_r by (rewrite length_take; lia).
    rewrite length_take, Nat.min_l by lia.
    case_bool_decide as Hin.
    + rewrite lookup_app_l by lia. f_equal. lia.
    + rewrite lookup_app_r by lia. rewrite lookup_drop. f_equal. lia.
Qed.

(** Reading an unsigned integer and writing it back moves its bytes. *)
Lemma encode_decode_uint (be : bool) (bs : list byte) :
  encode_uint be (length bs) (decode_uint be bs) = bs.
Proof.
  unfold encode_uint, decode_uint. destruct be.
  - rewrite <- (length_reverse bs), split_le_combine. apply reverse_involutive.
  - apply split_le_combine.
Qed.

Lemma length_encode_uint (be : bool) (sz : nat) (v : Z) :
  length (encode_uint be sz v) = sz.
Proof.
  unfold encode_uint. destruct be; rewrite ?length_reverse; apply length_le_split.
Qed.

(** ** Counting loops *)

(** The invariant rule: an invariant that every iteration re-establishes
    holds when the loop ends, and the loop does end. *)
Lemma for_loop_invariant {St : Type} (I : Z → St → Prop) (body : Z → St → option St)
    (n : nat) (i0 : Z) (s : St) :
  I i0 s →
  (∀ i s, i0 <= i < i0 + Z.of_nat n → I i s →
          ∃ s', body i s = Some s' ∧ I (i + 1) s') →
  ∃ s', for_loop n i0 body s = Some s' ∧ I (i0 + Z.of_nat n) s'.
Proof.
  revert i0 s. induction n as [|n IH]; intros i0 s Hinit Hstep.
  - exists s. split; [done|]. by replace (i0 + Z.of_nat 0) with i0 by lia.
  - destruct (Hstep i0 s) as (s1 & Hb & HI); [lia|done|].
    destruct (IH (i0 + 1) s1) as (s2 & Hl & HI2); [done| |].
    + intros i s' Hi. apply Hstep. lia.
    + exists s2. split.
      * simpl. rewrite Hb. simpl. exact Hl.
      * by replace (i0 + Z.of_nat (S n)) with (i0 + 1 + Z.of_nat n) by lia.
Qed.

(** ** One pixel *)

Lemma copy_uint_ok (be : bool) (sz : nat) (srcpix : list byte) :
  pixel_step_ok (Z.of_nat sz) srcpix (copy_uint be sz srcpix).
Proof.
  intros [d s m] Hs0 Hs1 Hd0 Hd1. simpl in *.
  unfold copy_uint, load_uint, store_uint. simpl.
  pose proof (load_bytes_Some srcpix s sz Hs0 Hs1) as Hl.
  rewrite Hl. simpl.
  set (bs := take sz (drop (Z.to_nat s) srcpix)) in *. clearbody bs.
  assert (Hlen : length bs = sz) by (by eapply load_bytes_length).
  assert (Henc : encode_uint be sz (decode_uint be bs) = bs)
    by (rewrite <- Hlen; apply encode_decode_uint).
  rewrite Henc.
  destruct (store_bytes_Some m bs d) as [m' Hst]; [done|lia|].
  rewrite Hst. simpl. exists m'. split; [done|]. split.
  { by eapply store_bytes_length. }
  intros i. rewrite (store_bytes_peek _ _ _ _ i Hst), Hlen.
  case_bool_decide as Hin; [|done].
  rewrite (load_bytes_lookup _ _ _ _ _ Hl) by lia. f_equal. lia.
Qed.

Lemma load8_peek (m : list byte) (p : Z) :
  0 <= p → p + 1 <= Z.of_nat (length m) →
  ∃ b, load8 m p = Some b ∧ peek m p = Some b.
Proof.
  intros H0 H1. unfold load8.
  pose proof (load_bytes_Some m p 1 H0 H1) as Hl. rewrite Hl. simpl.
  pose proof (load_bytes_lookup _ _ _ _ 0 Hl ltac:(lia)) as Hk.
  replace (p + Z.of_nat 0) with p in Hk by lia.
  destruct (peek_is_Some m p) as [b Hb]; [lia|].
  exists b. split; [|done]. rewrite Hb in Hk.
  destruct (take 1 (drop (Z.to_nat p) m)); simpl in *; congruence.
Qed.

Lemma store8_peek (m : list byte) (p : Z) (b : byte) :
  0 <= p → p + 1 <= Z.of_nat (length m) →
  ∃ m', store8 m p b = Some m' ∧ length m' = length m
        ∧ ∀ i, peek m' i = if bool_decide (i = p) then Some b else peek m i.
Proof.
  intros H0 H1. unfold store8.
  destruct (store_bytes_Some m [b] p) as [m' Hst]; [done|simpl; lia|].
  exists m'. split; [done|]. split; [by eapply store_bytes_length|].
  intros i. rewrite (store_bytes_peek _ _ _ _ i Hst). simpl.
  case_bool_decide as Hin; case_bool_decide as Heq; try lia; [|done].
  subst i. by replace (p - p) with 0 by lia.
Qed.

Lemma copy_24_ok (srcpix : list byte) : pixel_step_ok 3 srcpix (copy_24 srcpix).
Proof.
  intros [d s m] Hs0 Hs1 Hd0 Hd1. simpl in *. unfold copy_24. simpl.
  destruct (load8_peek srcpix (s + 0)) as (b0 & -> & Hb0); [lia..|]. simpl.
  destruct (store8_peek m (d + 0) b0) as (m0 & -> & Hl0 & Hp0); [lia..|]. simpl.
  destruct (load8_peek srcpix (s + 1)) as (b1 & -> & Hb1); [lia..|]. simpl.
  destruct (store8_peek m0 (d + 1) b1) as (m1 & -> & Hl1 & Hp1); [lia..|]. simpl.
  destruct (load8_peek srcpix (s + 2)) as (b2 & -> & Hb2); [lia..|]. simpl.
  destruct (store8_peek m1 (d + 2) b2) as (m2 & -> & Hl2 & Hp2); [lia..|]. simpl.
  exists m2. split; [done|]. split; [congruence|].
  intros i. rewrite Hp2, Hp1, Hp0.
  repeat case_bool_decide; try lia; subst;
    rewrite <- ?Hb0, <- ?Hb1, <- ?Hb2; try done; f_equal; lia.
Qed.

(** ** One row *)

Lemma cell_lt (a b sz k : Z) : 0 <= k < sz → a < b → a * sz + k < b * sz.
Proof. nia. Qed.

Lemma cell_nonneg (a sz k : Z) : 0 <= k → 0 <= sz → 0 <= a → 0 <= a * sz + k.
Proof. nia. Qed.

Lemma reverse_row_spec (sz w : Z) (srcpix : list byte) (step : cursor → option cursor)
    (d srow : Z) (m : list byte) :
  pixel_step_ok sz srcpix step → 0 < sz → 0 <= w →
  0 <= srow → srow + w * sz <= Z.of_nat (length srcpix) →
  0 <= d → d + w * sz <= Z.of_nat (length m) →
  ∃ m', reverse_row w step d (srow + (w - 1) * sz) m = Some m'
        ∧ length m' = length m
        ∧ (∀ x k, 0 <= x < w → 0 <= k < sz →
              peek m' (d + x * sz + k) = peek srcpix (srow + (w - 1 - x) * sz + k))
        ∧ (∀ i, ¬ (d <= i < d + w * sz) → peek m' i = peek m i).
Proof.
  intros Hstep Hsz Hw Hs0 Hs1 Hd0 Hd1. unfold reverse_row.
  destruct (for_loop_invariant
    (λ x c, cur_dst c = d + x * sz ∧ cur_src c = srow + (w - 1 - x) * sz
            ∧ length (cur_mem c) = length m
            ∧ (∀ x' k, 0 <= x' < x → 0 <= k < sz →
                 peek (cur_mem c) (d + x' * sz + k)
                 = peek srcpix (srow + (w - 1 - x') * sz + k))
            ∧ (∀ i, ¬ (d <= i < d + x * sz) → peek (cur_mem c) i = peek m i))
    (λ _, step) (Z.to_nat w) 0
    {| cur_dst := d; cur_src := srow + (w - 1) * sz; cur_mem := m |})
    as (c & Hrun & Hd & _ & Hlen & Hpix & Hrest).
  - simpl. repeat split; try lia.
  - intros x c Hx (Hcd & Hcs & Hlen & Hpix & Hrest).
    assert (0 <= x * sz) by nia.
    assert ((x + 1) * sz <= w * sz) by nia.
    destruct (Hstep c) as (m' & Hs & Hl' & Hp'); [nia|nia|lia|lia|].
    eexists. split; [exact Hs|]. simpl.
    split; [lia|]. split; [lia|]. split; [congruence|]. split.
    + intros x' k Hx' Hk. rewrite Hp'.
      destruct (decide (x' = x)) as [->|Hne].
      * rewrite bool_decide_eq_true_2 by lia. f_equal. lia.
      * pose proof (cell_lt x' x sz k Hk ltac:(lia)).
        rewrite bool_decide_eq_false_2 by lia. apply Hpix; lia.
    + intros i Hi. rewrite Hp'.
      rewrite bool_decide_eq_false_2 by lia. apply Hrest. lia.
  - replace (0 + Z.of_nat (Z.to_nat w)) with w in * by lia.
    rewrite Hrun. simpl. exists (cur_mem c). repeat split; done.
Qed.

Lemma memcpy_spec (m srcpix : list byte) (d s n : Z) :
  0 <= n → 0 <= s → s + n <= Z.of_nat (length srcpix) →
  0 <= d → d + n <= Z.of_nat (length m) →
  ∃ m', memcpy m d srcpix s n = Some m' ∧ length m' = length m
        ∧ ∀ i, peek m' i = if bool_decide (d <= i < d + n)
                           then peek srcpix (s + (i - d)) else peek m i.
Proof.
  intros Hn Hs0 Hs1 Hd0 Hd1. unfold memcpy.
  rewrite bool_decide_eq_true_2 by done.
  pose proof (load_bytes_Some srcpix s (Z.to_nat n) Hs0 ltac:(lia)) as Hl.
  rewrite Hl. simpl.
  set (bs := take (Z.to_nat n) (drop (Z.to_nat s) srcpix)) in *. clearbody bs.
  assert (Hlen : length bs = Z.to_nat n) by (by eapply load_bytes_length).
  destruct (store_bytes_Some m bs d) as [m' Hst]; [done|lia|].
  exists m'. split; [done|]. split; [by eapply store_bytes_length|].
  intros i. rewrite (store_bytes_peek _ _ _ _ i Hst), Hlen.
  replace (Z.of_nat (Z.to_nat n)) with n by lia.
  case_bool_decide as Hin; [|done].
  rewrite (load_bytes_lookup _ _ _ _ _ Hl) by lia. f_equal. lia.
Qed.

(** ** All rows *)

Lemma rows_spec (h w sz dp : Z) (L : nat) (srcpix : list byte)
    (srcoff : Z → Z → Z → Z) (body : Z → list byte → option (list byte))
    (m0 : list byte) :
  row_ok h w sz dp L srcpix srcoff body →
  0 <= h → 0 <= w → 0 < sz → w * sz <= dp → length m0 = L →
  ∃ m', for_loop (Z.to_nat h) 0 body m0 = Some m' ∧ length m' = L
        ∧ (∀ y x k, 0 <= y < h → 0 <= x < w → 0 <= k < sz →
              peek m' (y * dp + x * sz + k) = peek srcpix (srcoff y x k))
        ∧ (∀ i, (∀ y, 0 <= y < h → ¬ (y * dp <= i < y * dp + w * sz)) →
              peek m' i = peek m0 i).
Proof.
  intros Hrow Hh Hw Hsz Hdp HL.
  destruct (for_loop_invariant
    (λ y m, length m = L
            ∧ (∀ y' x k, 0 <= y' < y → 0 <= x < w → 0 <= k < sz →
                 peek m (y' * dp + x * sz + k) = peek srcpix (srcoff y' x k))
            ∧ (∀ i, (∀ y', 0 <= y' < y → ¬ (y' * dp <= i < y' * dp + w * sz)) →
                 peek m i = peek m0 i))
    body (Z.to_nat h) 0 m0) as (m' & Hrun & Hlen & Hpix & Hrest).
  - split; [done|]. split; [intros; lia|done].
  - intros y m Hy (Hlen & Hpix & Hrest).
    destruct (Hrow y m) as (m' & Hb & Hl' & Hp' & Hr'); [lia|done|].
    exists m'. split; [done|]. split; [done|]. split.
    + intros y' x k Hy' Hx Hk.
      destruct (decide (y' = y)) as [->|Hne]; [by apply Hp'|].
      pose proof (cell_lt x w sz k Hk ltac:(lia)).
      assert ((y' + 1) * dp <= y * dp) by nia.
      rewrite Hr' by lia. apply Hpix; lia.
    + intros i Hi. rewrite Hr' by (apply Hi; lia). apply Hrest.
      intros y' Hy'. apply Hi. lia.
  - replace (0 + Z.of_nat (Z.to_nat h)) with h in * by lia.
    exists m'. repeat split; done.
Qed.

(** ** The flip kernel *)

Section Kernel.
Variables surf newsurf : SDL_Surface.
Hypothesis Hpre : kernel_pre surf newsurf.

Let w := surf_w surf.
Let h := surf_h surf.
Let sz := BytesPerPixel (surf_format surf).
Let sp := surf_pitch surf.
Let dp := surf_pitch newsurf.
Let srcpix := surf_pixels surf.
Let L := length (surf_pixels newsurf).

Local Lemma kernel_facts :
  0 <= w ∧ 0 <= h <= INT_MAX ∧ 1 <= sz <= 4 ∧ w * sz <= sp ∧ w * sz <= dp
  ∧ h * sp <= INT_MAX ∧ h * dp <= INT_MAX
  ∧ h * sp <= Z.of_nat (length srcpix) ∧ h * dp <= Z.of_nat L.
Proof. exact Hpre. Qed.

Local Lemma row_offsets (yflip : bool) (y : Z) :
  0 <= y < h →
  int_mul y dp = y * dp
  ∧ int_mul (if yflip then int_sub (int_sub h 1) y else y) sp
    = flipped_y yflip surf y * sp
  ∧ 0 <= flipped_y yflip surf y < h
  ∧ int_mul w sz = w * sz
  ∧ 0 <= y * dp ∧ y * dp + dp <= h * dp
  ∧ 0 <= flipped_y yflip surf y * sp
  ∧ flipped_y yflip surf y * sp + sp <= h * sp.
Proof.
  intros Hy. destruct kernel_facts as (Hw & Hh & Hsz & Hsp & Hdp & Hsi & Hdi & _).
  unfold INT_MAX in *.
  assert (0 <= w * sz) by nia.
  assert (0 <= flipped_y yflip surf y < h)
    by (unfold flipped_y; fold h; destruct yflip; lia).
  assert (Hfy : (if yflip then int_sub (int_sub h 1) y else y)
                = flipped_y yflip surf y).
  { unfold flipped_y. fold h. destruct yflip; [|done].
    rewrite (int_sub_exact h 1) by (unfold INT_MAX; lia).
    rewrite int_sub_exact by (unfold INT_MAX; lia). done. }
  rewrite Hfy.
  rewrite !int_mul_exact by (unfold INT_MAX; nia).
  repeat split; try nia.
Qed.

Lemma memcpy_row_ok (yflip : bool) :
  row_ok h w sz dp L srcpix
    (λ y x k, pixel_offset surf (flipped_y yflip surf y) x k)
    (λ loopy dstpix,
       memcpy dstpix (int_mul loopy dp) srcpix
         (int_mul (if yflip then int_sub (int_sub h 1) loopy else loopy) sp)
         (int_mul w sz)).
Proof.
  intros y m Hy Hlen.
  destruct kernel_facts as (Hw & Hh & Hsz & Hsp & Hdp & Hsi & Hdi & Hsl & Hdl).
  destruct (row_offsets yflip y Hy) as (-> & -> & Hfy & -> & Hd0 & Hd1 & Hs0 & Hs1).
  assert (0 <= w * sz) by nia.
  destruct (memcpy_spec m srcpix (y * dp) (flipped_y yflip surf y * sp) (w * sz))
    as (m' & Hm & Hl' & Hp); [lia..|].
  exists m'. split; [done|]. split; [lia|]. split.
  - intros x k Hx Hk. rewrite Hp.
    pose proof (cell_lt x w sz k Hk ltac:(lia)).
    pose proof (cell_nonneg x sz k ltac:(lia) ltac:(lia) ltac:(lia)).
    rewrite bool_decide_eq_true_2 by lia.
    unfold pixel_offset. fold sp sz. f_equal. lia.
  - intros i Hi. rewrite Hp. by rewrite bool_decide_eq_false_2.
Qed.

Lemma reverse_rows_ok (yflip : bool) (step : cursor → option cursor) (src : Z → Z) :
  pixel_step_ok sz srcpix step →
  (∀ y, 0 <= y < h →
        src y = int_mul (if yflip then int_sub (int_sub h 1) y else y) sp
                + (w - 1) * sz) →
  row_ok h w sz dp L srcpix
    (λ y x k, pixel_offset surf (flipped_y yflip surf y) (w - 1 - x) k)
    (λ loopy, reverse_row w step (int_mul loopy dp) (src loopy)).
Proof.
  intros Hstep Hsrc y m Hy Hlen.
  destruct kernel_facts as (Hw & Hh & Hsz & Hsp & Hdp & Hsi & Hdi & Hsl & Hdl).
  rewrite (Hsrc y Hy).
  destruct (row_offsets yflip y Hy) as (-> & -> & Hfy & _ & Hd0 & Hd1 & Hs0 & Hs1).
  destruct (reverse_row_spec sz w srcpix step (y * dp)
              (flipped_y yflip surf y * sp) m Hstep)
    as (m' & Hm & Hl' & Hp & Hr); [lia..|].
  exists m'. split; [done|]. split; [lia|]. split; [|done].
  intros x k Hx Hk. rewrite Hp by done. done.
Qed.
End Kernel.

(** The kernel is total on surfaces that satisfy [kernel_pre], and the
    buffer it returns has every pixel of the destination filled from the
    mirrored source pixel, byte for byte, and the padding as it was. *)
Lemma flip_pixels_spec (be : bool) (surf newsurf : SDL_Surface) (xaxis yaxis : Z) :
  kernel_pre surf newsurf →
  ∃ px, flip_pixels be surf newsurf xaxis yaxis = Some px
        ∧ length px = length (surf_pixels newsurf)
        ∧ (∀ y x k, in_surface surf y x k →
             peek px (y * surf_pitch newsurf
                      + x * BytesPerPixel (surf_format surf) + k)
             = peek (surf_pixels surf)
                 (pixel_offset surf
                    (flipped_y (bool_decide (yaxis ≠ 0)) surf y)
                    (flipped_x (bool_decide (xaxis ≠ 0)) surf x) k))
        ∧ (∀ i, is_padding (surf_h surf) (surf_w surf)
                  (BytesPerPixel (surf_format surf)) (surf_pitch newsurf) i →
             peek px i = peek (surf_pixels newsurf) i).
Proof.
  intros Hpre.
  pose proof Hpre as (Hw & Hh & Hsz & Hsp & Hdp & Hsi & Hdi & Hsl & Hdl).
  cbv zeta in Hw, Hh, Hsz, Hsp, Hdp, Hsi, Hdi, Hsl, Hdl.
  set (sz := BytesPerPixel (surf_format surf)) in *.
  assert (Hgoal : ∀ (xflip yflip : bool) body,
    row_ok (surf_h surf) (surf_w surf) sz (surf_pitch newsurf)
      (length (surf_pixels newsurf)) (surf_pixels surf)
      (λ y x k, pixel_offset surf (flipped_y yflip surf y)
                  (flipped_x xflip surf x) k) body →
    ∃ px, for_loop (Z.to_nat (surf_h surf)) 0 body (surf_pixels newsurf) = Some px
        ∧ length px = length (surf_pixels newsurf)
        ∧ (∀ y x k, in_surface surf y x k →
             peek px (y * surf_pitch newsurf + x * sz + k)
             = peek (surf_pixels surf)
                 (pixel_offset surf (flipped_y yflip surf y)
                    (flipped_x xflip surf x) k))
        ∧ (∀ i, is_padding (surf_h surf) (surf_w surf) sz (surf_pitch newsurf) i →
             peek px i = peek (surf_pixels newsurf) i)).
  { intros xflip yflip body Hrow.
    destruct (rows_spec _ _ _ _ _ _ _ _ (surf_pixels newsurf) Hrow)
      as (px & Hrun & Hlen & Hpix & Hrest); [lia..|done|].
    exists px. split; [done|]. split; [done|]. split; [|done].
    intros y x k (Hy & Hx & Hk). by apply Hpix. }
  assert (Hsrc : ∀ (yflip : bool) (c : Z), c = sz →
    ∀ y, 0 <= y < surf_h surf →
      int_mul (if yflip then int_sub (int_sub (surf_h surf) 1) y else y)
        (surf_pitch surf) + c * surf_w surf - c * 1
      = int_mul (if yflip then int_sub (int_sub (surf_h surf) 1) y else y)
          (surf_pitch surf) + (surf_w surf - 1) * sz).
  { intros yflip c -> y Hy. lia. }
  assert (Hsrc3 : sz = 3 → ∀ (yflip : bool) y, 0 <= y < surf_h surf →
      int_mul (if yflip then int_sub (int_sub (surf_h surf) 1) y else y)
        (surf_pitch surf) + int_mul (surf_w surf) 3 - 3
      = int_mul (if yflip then int_sub (int_sub (surf_h surf) 1) y else y)
          (surf_pitch surf) + (surf_w surf - 1) * sz).
  { intros Hsz3 yflip y Hy.
    assert (Hw3 : surf_w surf * 3 = surf_w surf * sz) by (by rewrite Hsz3).
    assert ((surf_w surf - 1) * sz = surf_w surf * 3 - 3) by (rewrite Hsz3; lia).
    rewrite (int_mul_exact (surf_w surf) 3); [lia|unfold INT_MAX in *; nia]. }
  unfold flip_pixels. fold sz.
  destruct (decide (xaxis = 0)) as [Hx|Hx];
    [rewrite (bool_decide_eq_true_2 (xaxis = 0)) by done
    |rewrite (bool_decide_eq_false_2 (xaxis = 0)) by done];
  (destruct (decide (yaxis = 0)) as [Hy|Hy];
    [rewrite ?(bool_decide_eq_true_2 (yaxis = 0)) by done;
     rewrite ?(bool_decide_eq_false_2 (yaxis ≠ 0)) by tauto
    |rewrite ?(bool_decide_eq_false_2 (yaxis = 0)) by done;
     rewrite ?(bool_decide_eq_true_2 (yaxis ≠ 0)) by done]).
  - rewrite (bool_decide_eq_false_2 (xaxis ≠ 0)) by tauto.
    apply (Hgoal false false). apply (memcpy_row_ok surf newsurf Hpre false).
  - rewrite (bool_decide_eq_false_2 (xaxis ≠ 0)) by tauto.
    apply (Hgoal false true). apply (memcpy_row_ok surf newsurf Hpre true).
  - rewrite (bool_decide_eq_true_2 (xaxis ≠ 0)) by done.
    assert (Hcases : sz = 1 ∨ sz = 2 ∨ sz = 3 ∨ sz = 4) by lia.
    destruct Hcases as [H1|[H2|[H3|H4]]];
      repeat (case_bool_decide; try lia); apply (Hgoal true false).
    + apply (reverse_rows_ok surf newsurf Hpre false); fold sz;
        [rewrite H1; apply (copy_uint_ok be 1)|apply (Hsrc false); lia].
    + apply (reverse_rows_ok surf newsurf Hpre false); fold sz;
        [rewrite H2; apply (copy_uint_ok be 2)|apply (Hsrc false); lia].
    + apply (reverse_rows_ok surf newsurf Hpre false); fold sz;
        [rewrite H3; apply copy_24_ok|apply (Hsrc3 H3 false)].
    + apply (reverse_rows_ok surf newsurf Hpre false); fold sz;
        [rewrite H4; apply (copy_uint_ok be 4)|apply (Hsrc false); lia].
  - rewrite (bool_decide_eq_true_2 (xaxis ≠ 0)) by done.
    assert (Hcases : sz = 1 ∨ sz = 2 ∨ sz = 3 ∨ sz = 4) by lia.
    destruct Hcases as [H1|[H2|[H3|H4]]];
      repeat (case_bool_decide; try lia); apply (Hgoal true true).
    + apply (reverse_rows_ok surf newsurf Hpre true); fold sz;
        [rewrite H1; apply (copy_uint_ok be 1)|apply (Hsrc true); lia].
    + apply (reverse_rows_ok surf newsurf Hpre true); fold sz;
        [rewrite H2; apply (copy_uint_ok be 2)|apply (Hsrc true); lia].
    + apply (reverse_rows_ok surf newsurf Hpre true); fold sz;
        [rewrite H3; apply copy_24_ok|apply (Hsrc3 H3 true)].
    + apply (reverse_rows_ok surf newsurf Hpre true); fold sz;
        [rewrite H4; apply (copy_uint_ok be 4)|apply (Hsrc true); lia].
Qed.

(** ** The allocator *)

Lemma land_minus4 (x : Z) : Z.land x (-4) = 4 * (x / 4).
Proof.
  change (-4) with (Z.lnot (Z.ones 2)).
  rewrite <- Z.ldiff_land, Z.ldiff_ones_r by lia.
  rewrite Z.shiftr_div_pow2, Z.shiftl_mul_pow2 by lia.
  change (2 ^ 2) with 4. lia.
Qed.

Lemma SDL_CalculatePitch_bounds (w depth Bpp : Z) :
  8 <= depth →
  w * Bpp <= SDL_CalculatePitch w depth Bpp <= w * Bpp + 3.
Proof.
  intros Hd. unfold SDL_CalculatePitch.
  rewrite !bool_decide_eq_false_2 by lia.
  rewrite land_minus4. Z.div_mod_to_equations. lia.
Qed.

Lemma wf_twin_pitch (s : SDL_Surface) :
  wf_surface s →
  surf_w s * BytesPerPixel (surf_format s) <= twin_pitch s.
Proof.
  intros (_ & _ & Hbits & _). apply SDL_CalculatePitch_bounds. lia.
Qed.

Lemma wf_pixel_size (s : SDL_Surface) :
  wf_surface s → 1 <= BytesPerPixel (surf_format s) <= 4.
Proof. intros (_ & _ & Hbits & -> & _). Z.div_mod_to_equations. lia. Qed.

Lemma fresh_surface_None (σ : sdl_state) :
  surfaces σ !! fresh (dom (surfaces σ)) = None.
Proof. apply not_elem_of_dom, is_fresh. Qed.

Lemma update_surface_insert (m : gmap positive SDL_Surface) (n : loc)
    (s0 : SDL_Surface) (f : SDL_Surface → SDL_Surface) (mem : Z) (err : string) :
  update_surface n f {| surfaces := <[n := s0]> m; mem_avail := mem; sdl_error := err |}
  = (Ret tt, {| surfaces := <[n := f s0]> m; mem_avail := mem; sdl_error := err |}).
Proof.
  unfold update_surface. simpl. by rewrite lookup_insert_eq, insert_insert_eq.
Qed.

(** With a supported pixel size and enough memory the allocator returns a
    fresh zero-filled surface of the requested size and of the depth of
    its model, and touches no other surface. *)
Lemma newsurf_fromsurf_ok (σ : sdl_state) (p : loc) (s : SDL_Surface) (width height : Z) :
  surfaces σ !! p = Some s →
  1 <= BytesPerPixel (surf_format s) <= 4 →
  let pitch := SDL_CalculatePitch width (BitsPerPixel (surf_format s))
                 ((BitsPerPixel (surf_format s) + 7) / 8) in
  height * pitch <= mem_avail σ →
  ∃ n ns σ',
    newsurf_fromsurf p width height σ = (Ret (Some n), σ')
    ∧ allocated σ σ' n ns
    ∧ mem_avail σ' = mem_avail σ - height * pitch
    ∧ surf_w ns = width ∧ surf_h ns = height ∧ surf_pitch ns = pitch
    ∧ surf_pixels ns = replicate (Z.to_nat (height * pitch)) Byte.x00
    ∧ BitsPerPixel (surf_format ns) = BitsPerPixel (surf_format s)
    ∧ BytesPerPixel (surf_format ns) = (BitsPerPixel (surf_format s) + 7) / 8.
Proof.
  intros Hp Hsz pitch Hmem.
  unfold newsurf_fromsurf, bind, deref. rewrite Hp.
  rewrite bool_decide_eq_false_2 by lia.
  unfold SDL_CreateRGBSurface. simpl. fold pitch.
  rewrite bool_decide_eq_true_2 by done.
  set (n := fresh (dom (surfaces σ))).
  exists n.
  destruct (palette (surf_format s)) as [colors|];
    [destruct (bool_decide (BytesPerPixel (surf_format s) = 1))|];
    unfold ret; rewrite ?update_surface_insert;
    (destruct (bool_decide (Z.land (surf_flags s) SDL_SRCCOLORKEY ≠ 0));
     unfold SDL_SetColors, SDL_SetColorKey; rewrite ?update_surface_insert;
     do 2 eexists; (split; [reflexivity|]);
     (split; [split; [apply fresh_surface_None|reflexivity]|]);
     simpl; repeat split; reflexivity).
Qed.

(** ** The flip entry point *)

Lemma wf_kernel_pre (s ns : SDL_Surface) :
  wf_surface s →
  surf_pitch ns = twin_pitch s →
  surf_pixels ns = replicate (Z.to_nat (surf_h s * twin_pitch s)) Byte.x00 →
  kernel_pre s ns.
Proof.
  intros Hwf Hpitch Hpix.
  pose proof (wf_twin_pitch s Hwf) as Htw.
  pose proof (wf_pixel_size s Hwf) as Hsz.
  destruct Hwf as (Hw & Hh & Hbits & HBpp & Hsp & Hsi & Hti & Hlen).
  unfold kernel_pre. rewrite Hpitch, Hpix, length_replicate.
  assert (0 <= twin_pitch s) by nia.
  assert (0 <= surf_h s * twin_pitch s) by nia.
  repeat split; try lia.
Qed.

Lemma source_pixel_in_bounds (s : SDL_Surface) (xflip yflip : bool) (y x k : Z) :
  wf_surface s → in_surface s y x k →
  0 <= pixel_offset s (flipped_y yflip s y) (flipped_x xflip s x) k
    < Z.of_nat (length (surf_pixels s)).
Proof.
  intros Hwf (Hy & Hx & Hk).
  pose proof (wf_pixel_size s Hwf) as Hsz.
  destruct Hwf as (Hw & Hh & Hbits & HBpp & Hsp & Hsi & Hti & Hlen).
  unfold pixel_offset.
  set (fy := flipped_y yflip s y). set (fx := flipped_x xflip s x).
  assert (0 <= fy < surf_h s) by (unfold fy, flipped_y; destruct yflip; lia).
  assert (0 <= fx < surf_w s) by (unfold fx, flipped_x; destruct xflip; lia).
  pose proof (cell_lt fx (surf_w s) (BytesPerPixel (surf_format s)) k Hk ltac:(lia)).
  pose proof (cell_nonneg fx (BytesPerPixel (surf_format s)) k
                ltac:(lia) ltac:(lia) ltac:(lia)).
  assert (0 <= fy * surf_pitch s) by nia.
  assert ((fy + 1) * surf_pitch s <= surf_h s * surf_pitch s) by nia.
  lia.
Qed.

Section FlipEntry.
Context {double : Type}.
Variable be : bool.

(** On a well-formed surface and with memory for the twin, [flip] with
    two arguments returns a new surface that is the source mirrored along
    the axes whose argument is non-zero as an [int]; the store gains this
    one surface and is otherwise as before. *)
Lemma rbgm_transform_flip_ok (a b : VALUE double) (addr : Z) (p : loc)
    (s : SDL_Surface) (σ : sdl_state) :
  surfaces σ !! p = Some s →
  wf_surface s →
  surf_h s * twin_pitch s <= mem_avail σ →
  ∃ n ns σ',
    rbgm_transform_flip be [a; b] (RData addr p) σ = (Ret (RetSurface n), σ')
    ∧ allocated σ σ' n ns
    ∧ mem_avail σ' = mem_avail σ - surf_h s * twin_pitch s
    ∧ flipped_copy (axis_set a) (axis_set b) s ns.
Proof.
  intros Hp Hwf Hmem.
  pose proof (wf_pixel_size s Hwf) as Hsz.
  pose proof Hwf as (Hw & Hh & Hbits & HBpp & Hsp & Hsi & Hti & Hlen).
  cbv zeta in HBpp, Hsp.
  destruct (newsurf_fromsurf_ok σ p s (surf_w s) (surf_h s) Hp Hsz)
    as (n & ns0 & σ1 & Hnew & [Hfresh Hσ1] & Hmem1 & Hw0 & Hh0 & Hp0 & Hpx0
        & Hbits0 & HBpp0).
  { cbv zeta. rewrite <- HBpp. exact Hmem. }
  cbv zeta in Hmem1, Hp0, Hpx0. rewrite <- HBpp in Hmem1, Hp0, Hpx0, HBpp0.
  fold (twin_pitch s) in Hmem1, Hp0, Hpx0.
  destruct (flip_pixels_spec be s ns0 (VALUE_to_int a) (VALUE_to_int b)
              (wf_kernel_pre s ns0 Hwf Hp0 Hpx0))
    as (px & Hflip & Hlenpx & Hpix & _).
  exists n, (set_pixels ns0 px).
  eexists. split.
  { unfold rbgm_transform_flip, bind. simpl.
    unfold deref at 1. rewrite Hp. rewrite Hnew.
    unfold deref. rewrite Hσ1, lookup_insert_eq.
    unfold argv_at. simpl. rewrite Hflip. simpl.
    unfold update_surface. rewrite Hσ1, lookup_insert_eq, insert_insert_eq.
    reflexivity. }
  split; [split; [done|reflexivity]|].
  split; [done|].
  assert (0 <= twin_pitch s) by (pose proof (wf_twin_pitch s Hwf); nia).
  unfold flipped_copy. simpl.
  rewrite Hlenpx, Hpx0, length_replicate.
  repeat split; try done; try lia.
  intros y x k Hin.
  destruct (peek_is_Some (surf_pixels s)
              (pixel_offset s (flipped_y (axis_set b) s y)
                 (flipped_x (axis_set a) s x) k)) as [c Hc].
  { by apply source_pixel_in_bounds. }
  exists c. split; [|done].
  unfold pixel_offset at 1. simpl. rewrite Hp0 at 1. rewrite HBpp0.
  rewrite <- Hp0. rewrite Hpix by done. exact Hc.
Qed.
End FlipEntry.

(** ** Frames *)

Create HintDb frame discriminated.

Lemma frame_ret {A} (a : A) : frame (ret a).
Proof. by intros σ p s Hp. Qed.

Lemma frame_rb_raise {A} (cls : rb_class) (fmt : string) (args : list fmt_arg) :
  frame (@rb_raise A cls fmt args).
Proof. by intros σ p s Hp. Qed.

Lemma frame_undefined {A} : frame (@undefined A).
Proof. by intros σ p s Hp. Qed.

Lemma frame_bind {A B} (m : M A) (k : A → M B) :
  frame m → (∀ a, frame (k a)) → frame (bind m k).
Proof.
  intros Hm Hk σ p s Hp. unfold bind.
  specialize (Hm σ p s Hp). simpl in Hm.
  destruct (m σ) as [[a|e|] σ1]; simpl in *; [|done..].
  by apply (Hk a σ1 p s).
Qed.

Lemma frame_SDL_GetError : frame SDL_GetError.
Proof. by intros σ p s Hp. Qed.

Lemma frame_call_gfx {A} (f : sdl_state → A * sdl_state) :
  keeps_surfaces (λ σ, (f σ).2) → frame (call_gfx f).
Proof.
  intros Hf σ p s Hp. specialize (Hf σ p s Hp). unfold call_gfx.
  simpl in *. by destruct (f σ).
Qed.

Lemma frame_wrap_or_raise (dst : option loc) : frame (wrap_or_raise dst).
Proof.
  destruct dst; simpl; [apply frame_ret|].
  apply frame_bind; [apply frame_SDL_GetError|]. intros. apply frame_rb_raise.
Qed.

#[global] Hint Resolve frame_ret frame_rb_raise frame_undefined frame_SDL_GetError
  frame_wrap_or_raise : frame.

Section RubyFrames.
Context {double : Type} `{Double double}.

Lemma frame_NUM2DBL (v : VALUE double) : frame (NUM2DBL v).
Proof. destruct v; simpl; auto with frame. Qed.

Lemma frame_NUM2INT (v : VALUE double) : frame (NUM2INT v).
Proof. destruct v; simpl; auto with frame. Qed.

Lemma frame_rb_ary_entry (v : VALUE double) (i : Z) : frame (rb_ary_entry v i).
Proof. destruct v; simpl; auto with frame. Qed.

Lemma frame_Data_Get_Struct (v : VALUE double) : frame (Data_Get_Struct v).
Proof. destruct v; simpl; auto with frame. Qed.

Lemma frame_zoom_factors (v : VALUE double) : frame (zoom_factors v).
Proof.
  unfold zoom_factors.
  repeat first
    [ apply frame_bind; [|intros ?]
    | apply frame_NUM2DBL | apply frame_rb_ary_entry
    | case_match
    | solve [auto with frame] ].
Qed.
End RubyFrames.

(** The dispatch writes to no surface: what [rotozoom] and [zoom] do to
    the store is what the resampler does to it. *)
Lemma dispatch_frame {double : Type} `{Double double} (gfx : SDL_gfx double)
    (argv : list (VALUE double)) (self : VALUE double) :
  gfx_frame gfx →
  frame (rbgm_transform_rotozoom gfx argv self)
  ∧ frame (rbgm_transform_zoom gfx argv self).
Proof.
  intros (Hrz & Hxy & Hz). split.
  - unfold rbgm_transform_rotozoom.
    repeat first
      [ apply frame_bind; [|intros ?]
      | apply frame_NUM2DBL | apply frame_rb_ary_entry
      | apply frame_Data_Get_Struct
      | apply frame_call_gfx; solve [apply Hrz | apply Hxy]
      | case_match
      | solve [auto with frame] ].
  - unfold rbgm_transform_zoom.
    repeat first
      [ apply frame_bind; [|intros ?]
      | apply frame_zoom_factors
      | apply frame_Data_Get_Struct
      | apply frame_call_gfx; solve [apply Hz]
      | case_match
      | solve [auto with frame] ].
Qed.

(** The allocator either leaves the surfaces as they are and returns no
    surface, or adds one fresh surface and returns it. *)
Lemma newsurf_fromsurf_frame (p : loc) (width height : Z) (σ σ' : sdl_state)
    (o : outcome (option loc)) :
  newsurf_fromsurf p width height σ = (o, σ') →
  (surfaces σ' = surfaces σ ∧ ∀ n, o ≠ Ret (Some n))
  ∨ (∃ n ns, o = Ret (Some n) ∧ allocated σ σ' n ns).
Proof.
  unfold newsurf_fromsurf, bind, deref.
  destruct (surfaces σ !! p) as [s|]; [|by intros [= <- <-]; left].
  case_bool_decide; [by intros [= <- <-]; left|].
  unfold SDL_CreateRGBSurface.
  case_bool_decide; [|by intros [= <- <-]; left].
  intros Hrun. right. exists (fresh (dom (surfaces σ))).
  revert Hrun.
  destruct (palette (surf_format s)) as [colors|];
    [destruct (bool_decide (BytesPerPixel (surf_format s) = 1))|];
    unfold ret; rewrite ?update_surface_insert;
    (destruct (bool_decide (Z.land (surf_flags s) SDL_SRCCOLORKEY ≠ 0));
     unfold SDL_SetColors, SDL_SetColorKey; rewrite ?update_surface_insert;
     intros [= <- <-];
     eexists; (split; [reflexivity|]);
     (split; [apply fresh_surface_None|reflexivity])).
Qed.

(** [flip] either leaves the surfaces as they are and returns no surface,
    or adds one fresh surface, which is the one it returns when it
    returns. *)
Lemma rbgm_transform_flip_frame {double : Type} (be : bool)
    (argv : list (VALUE double)) (self : VALUE double) (σ σ' : sdl_state)
    (o : outcome rb_ret) :
  rbgm_transform_flip be argv self σ = (o, σ') →
  (surfaces σ' = surfaces σ ∧ ∀ n, o ≠ Ret (RetSurface n))
  ∨ (∃ n ns, allocated σ σ' n ns ∧ ∀ n', o = Ret (RetSurface n') → n' = n).
Proof.
  unfold rbgm_transform_flip.
  case_bool_decide as Hargc; [by intros [= <- <-]; left|].
  unfold bind at 1.
  destruct self; simpl; try by (intros [= <- <-]; left).
  unfold bind at 1. unfold deref at 1.
  destruct (surfaces σ !! p) as [s|]; [|by intros [= <- <-]; left].
  unfold bind at 1.
  pose proof (newsurf_fromsurf_frame p (surf_w s) (surf_h s) σ) as Hn.
  destruct (newsurf_fromsurf p (surf_w s) (surf_h s) σ) as [o1 σ1].
  destruct (Hn σ1 o1 eq_refl) as [[Hsame Hno]|(n & ns & -> & Hfresh & Hσ1)].
  - destruct o1 as [[n|]|e|]; simpl; try (by intros [= <- <-]; left).
    by destruct (Hno n).
  - intros Hrun. right. revert Hrun.
    unfold bind, SDL_LockSurface, SDL_UnlockSurface, ret, deref.
    rewrite Hσ1, lookup_insert_eq.
    destruct (flip_pixels be s ns _ _) as [px|]; simpl.
    + unfold update_surface. rewrite Hσ1, lookup_insert_eq. simpl.
      rewrite insert_insert_eq. intros [= <- <-].
      exists n, (set_pixels ns px). split; [by split|]. by intros n' [= ->].
    + intros [= <- <-]. exists n, ns. split; [by split|]. by intros n' [=].
Qed.

(** ** The claims *)

Lemma allocated_keeps (σ σ' : sdl_state) (n : loc) (ns : SDL_Surface) (p : loc)
    (s : SDL_Surface) :
  allocated σ σ' n ns → surfaces σ !! p = Some s → surfaces σ' !! p = Some s.
Proof.
  intros [Hfresh ->] Hp. rewrite lookup_insert_ne; [done|]. congruence.
Qed.

(** C7. No source mutation.  After a call of [flip], [zoom] or [rotozoom],
    whether it returns or raises, every surface the store had before the
    call (the source among them) is in the store with every field, the
    pixel buffer included, as it was; for [zoom] and [rotozoom], which
    write no pixel themselves, this is under the resampler's contract
    [gfx_frame].  The surface [flip] returns is a new one. *)
Theorem no_source_mutation {double : Type} `{Double double} (gfx : SDL_gfx double)
    (be : bool) (argv : list (VALUE double)) (self : VALUE double)
    (σ : sdl_state) (p : loc) (s : SDL_Surface) :
  gfx_frame gfx →
  surfaces σ !! p = Some s →
  surfaces (rbgm_transform_flip be argv self σ).2 !! p = Some s
  ∧ surfaces (rbgm_transform_zoom gfx argv self σ).2 !! p = Some s
  ∧ surfaces (rbgm_transform_rotozoom gfx argv self σ).2 !! p = Some s
  ∧ ∀ n, (rbgm_transform_flip be argv self σ).1 = Ret (RetSurface n) →
         surfaces σ !! n = None
         ∧ is_Some (surfaces (rbgm_transform_flip be argv self σ).2 !! n).
Proof.
  intros Hgfx Hp.
  destruct (dispatch_frame gfx argv self Hgfx) as [Hrz Hz].
  pose proof (rbgm_transform_flip_frame be argv self σ) as Hflip.
  destruct (rbgm_transform_flip be argv self σ) as [o σ'].
  specialize (Hflip σ' o eq_refl). simpl.
  split; [|split; [by apply Hz|split; [by apply Hrz|]]].
  - destruct Hflip as [[-> _]|(n & ns & Halloc & _)]; [done|].
    by eapply allocated_keeps.
  - intros n ->.
    destruct Hflip as [[_ Hno]|(n0 & ns & [Hfresh ->] & Hret)]; [by destruct (Hno n)|].
    rewrite (Hret n eq_refl). split; [done|]. rewrite lookup_insert_eq. eauto.
Qed.

Lemma axis_set_rb_bool {double : Type} (b : bool) :
  axis_set (@rb_bool double b) = b.
Proof. by destruct b. Qed.

(** C1. The four cases of flip.  For every well-formed source surface
    (memory for the twin available) and every pair of boolean flags,
    [flip(horz, vert)] returns a new surface of the same width, height and
    depth in which byte [k] of pixel [(x, y)] is byte [k] of the source
    pixel [(x, y)] with neither flag, [(x, h-1-y)] with [vert] only,
    [(w-1-x, y)] with [horz] only and [(w-1-x, h-1-y)] with both.  On the
    4x2 surface of 32-bit words 1..8, in either byte order, the three flips
    give the words of scenarios S1, S2 and S3. *)
Theorem flip_four_cases :
  (∀ (double : Type) (be horz vert : bool) (addr : Z) (p : loc)
     (s : SDL_Surface) (σ : sdl_state),
     surfaces σ !! p = Some s →
     wf_surface s →
     surf_h s * twin_pitch s <= mem_avail σ →
     ∃ n ns σ',
       rbgm_transform_flip be [@rb_bool double horz; rb_bool vert] (RData addr p) σ
       = (Ret (RetSurface n), σ')
       ∧ allocated σ σ' n ns
       ∧ flipped_copy horz vert s ns)
  ∧ (∀ be, flip_bytes be (rgb_surface 4 2 32 16 (words be [1; 2; 3; 4; 5; 6; 7; 8]))
             true false
           = Some (words be [4; 3; 2; 1; 8; 7; 6; 5]))
  ∧ (∀ be, flip_bytes be (rgb_surface 4 2 32 16 (words be [1; 2; 3; 4; 5; 6; 7; 8]))
             false true
           = Some (words be [5; 6; 7; 8; 1; 2; 3; 4]))
  ∧ (∀ be, flip_bytes be (rgb_surface 4 2 32 16 (words be [1; 2; 3; 4; 5; 6; 7; 8]))
             true true
           = Some (words be [8; 7; 6; 5; 4; 3; 2; 1])).
Proof.
  split; [|repeat split; intros []; vm_compute; reflexivity].
  intros double be horz vert addr p s σ Hp Hwf Hmem.
  destruct (rbgm_transform_flip_ok be (@rb_bool double horz) (rb_bool vert)
              addr p s σ Hp Hwf Hmem) as (n & ns & σ' & Hrun & Halloc & _ & Hcopy).
  rewrite !axis_set_rb_bool in Hcopy. by exists n, ns, σ'.
Qed.

(** C2. Packed 24-bit pixels.  One step of the 3-byte loop moves the bytes
    at [src], [src + 1], [src + 2] to [dst], [dst + 1], [dst + 2] and
    leaves [dst] three bytes further and [src] three bytes back; so a
    horizontal flip of a well-formed 3-bytes-per-pixel surface puts byte
    [k] of source pixel [w-1-x] at byte [k] of pixel [x], and the 2x1
    surface [A0 A1 A2 B0 B1 B2] becomes [B0 B1 B2 A0 A1 A2]. *)
Theorem flip_24bit_keeps_byte_order :
  (∀ srcpix, pixel_step_ok 3 srcpix (copy_24 srcpix))
  ∧ (∀ (double : Type) (be vert : bool) (addr : Z) (p : loc)
       (s : SDL_Surface) (σ : sdl_state),
       surfaces σ !! p = Some s →
       wf_surface s →
       BytesPerPixel (surf_format s) = 3 →
       surf_h s * twin_pitch s <= mem_avail σ →
       ∃ n ns σ',
         rbgm_transform_flip be [@Qtrue double; rb_bool vert] (RData addr p) σ
         = (Ret (RetSurface n), σ')
         ∧ allocated σ σ' n ns
         ∧ surf_w ns = surf_w s ∧ surf_h ns = surf_h s
         ∧ ∀ y x k, 0 <= y < surf_h s → 0 <= x < surf_w s → 0 <= k < 3 →
             ∃ b, peek (surf_pixels ns) (y * surf_pitch ns + x * 3 + k) = Some b
                  ∧ peek (surf_pixels s)
                      (flipped_y vert s y * surf_pitch s
                       + (surf_w s - 1 - x) * 3 + k) = Some b)
  ∧ (∀ (be : bool) (A0 A1 A2 B0 B1 B2 : byte),
       flip_bytes be (rgb_surface 2 1 24 6 [A0; A1; A2; B0; B1; B2]) true false
       = Some [B0; B1; B2; A0; A1; A2]).
Proof.
  split; [exact copy_24_ok|]. split; [|intros; vm_compute; reflexivity].
  intros double be vert addr p s σ Hp Hwf H3 Hmem.
  destruct (rbgm_transform_flip_ok be (@Qtrue double) (rb_bool vert)
              addr p s σ Hp Hwf Hmem) as (n & ns & σ' & Hrun & Halloc & _ & Hcopy).
  rewrite axis_set_rb_bool in Hcopy.
  destruct Hcopy as (Hw & Hh & _ & HBpp & _ & _ & Hpix).
  exists n, ns, σ'. do 4 (split; [done|]).
  intros y x k Hy Hx Hk.
  destruct (Hpix y x k) as (b & Hb1 & Hb2); [unfold in_surface; lia|].
  unfold pixel_offset in Hb1, Hb2. rewrite HBpp, H3 in Hb1. rewrite H3 in Hb2.
  by exists b.
Qed.

(** The mirror image of a well-formed surface is well-formed, and has the
    same twin pitch. *)
Lemma flipped_copy_wf (xflip yflip : bool) (s ns : SDL_Surface) :
  wf_surface s → flipped_copy xflip yflip s ns →
  wf_surface ns ∧ twin_pitch ns = twin_pitch s.
Proof.
  intros Hwf (Hw & Hh & Hbits & HBpp & Hpitch & Hlen & _).
  pose proof (wf_twin_pitch s Hwf) as Htw.
  destruct Hwf as (Hw0 & Hh0 & Hb0 & HB0 & Hsp & Hsi & Hti & Hl0).
  assert (Htwin : twin_pitch ns = twin_pitch s)
    by (unfold twin_pitch; by rewrite Hw, Hbits, HBpp).
  split; [|done].
  unfold wf_surface. rewrite Htwin, Hw, Hh, Hbits, HBpp, Hpitch, Hlen.
  repeat split; try lia.
Qed.

Lemma flipped_twice (s : SDL_Surface) (xflip yflip : bool) (y x k : Z) :
  in_surface s y x k →
  in_surface s (flipped_y yflip s y) (flipped_x xflip s x) k
  ∧ flipped_y yflip s (flipped_y yflip s y) = y
  ∧ flipped_x xflip s (flipped_x xflip s x) = x.
Proof.
  intros (Hy & Hx & Hk). unfold in_surface, flipped_y, flipped_x.
  destruct xflip, yflip; repeat split; lia.
Qed.

(** C3. Flip is an involution.  For every well-formed surface (pixel size
    1, 2, 3 or 4) and every pair of flags, with memory for two twins,
    flipping and then flipping the result with the same flags succeeds
    twice, and every byte of every pixel of the second result (the first
    width * bytes_per_pixel bytes of each row) equals that byte of the
    source. *)
Theorem flip_involution {double : Type} (be horz vert : bool) (addr addr' : Z)
    (p : loc) (s : SDL_Surface) (σ : sdl_state) :
  surfaces σ !! p = Some s →
  wf_surface s →
  2 * (surf_h s * twin_pitch s) <= mem_avail σ →
  ∃ n1 σ1 n2 s2 σ2,
    rbgm_transform_flip be [@rb_bool double horz; rb_bool vert] (RData addr p) σ
    = (Ret (RetSurface n1), σ1)
    ∧ rbgm_transform_flip be [@rb_bool double horz; rb_bool vert] (RData addr' n1) σ1
      = (Ret (RetSurface n2), σ2)
    ∧ surfaces σ2 !! n2 = Some s2
    ∧ surf_w s2 = surf_w s ∧ surf_h s2 = surf_h s
    ∧ BytesPerPixel (surf_format s2) = BytesPerPixel (surf_format s)
    ∧ ∀ y x k, in_surface s y x k →
        ∃ b, peek (surf_pixels s2) (pixel_offset s2 y x k) = Some b
             ∧ peek (surf_pixels s) (pixel_offset s y x k) = Some b.
Proof.
  intros Hp Hwf Hmem.
  assert (0 <= surf_h s * twin_pitch s).
  { pose proof (wf_twin_pitch s Hwf). pose proof (wf_pixel_size s Hwf).
    destruct Hwf as (? & ? & _). nia. }
  destruct (rbgm_transform_flip_ok be (@rb_bool double horz) (rb_bool vert)
              addr p s σ Hp Hwf ltac:(lia))
    as (n1 & s1 & σ1 & Hrun1 & [Hfresh1 Hσ1] & Hmem1 & Hcopy1).
  rewrite !axis_set_rb_bool in Hcopy1.
  destruct (flipped_copy_wf _ _ s s1 Hwf Hcopy1) as [Hwf1 Htwin1].
  pose proof Hcopy1 as (Hw1 & Hh1 & Hbits1 & HBpp1 & _ & _ & Hpix1).
  assert (Hp1 : surfaces σ1 !! n1 = Some s1) by (rewrite Hσ1; apply lookup_insert_eq).
  destruct (rbgm_transform_flip_ok be (@rb_bool double horz) (rb_bool vert)
              addr' n1 s1 σ1 Hp1 Hwf1)
    as (n2 & s2 & σ2 & Hrun2 & [Hfresh2 Hσ2] & Hmem2 & Hcopy2).
  { rewrite Htwin1, Hh1, Hmem1. lia. }
  rewrite !axis_set_rb_bool in Hcopy2.
  destruct Hcopy2 as (Hw2 & Hh2 & Hbits2 & HBpp2 & _ & _ & Hpix2).
  exists n1, σ1, n2, s2, σ2.
  split; [done|]. split; [done|].
  split; [rewrite Hσ2; apply lookup_insert_eq|].
  split; [congruence|]. split; [congruence|]. split; [congruence|].
  intros y x k Hin.
  destruct (flipped_twice s horz vert y x k Hin) as (Hin' & Hyy & Hxx).
  assert (Hin1 : in_surface s1 y x k)
    by (unfold in_surface in *; rewrite Hw1, Hh1, HBpp1; done).
  destruct (Hpix2 y x k Hin1) as (b & Hb2 & Hb1).
  destruct (Hpix1 _ _ k Hin') as (b' & Hb1' & Hb0).
  rewrite Hyy, Hxx in Hb0.
  assert (Hfy : flipped_y vert s1 y = flipped_y vert s y)
    by (unfold flipped_y; by rewrite Hh1).
  assert (Hfx : flipped_x horz s1 x = flipped_x horz s x)
    by (unfold flipped_x; by rewrite Hw1).
  rewrite Hfy, Hfx in Hb1.
  exists b. split; [done|]. congruence.
Qed.

(** ** Axis flags *)

Lemma wrap_int_zero (x : Z) : wrap_int x = 0 → x mod 2 ^ 32 = 0.
Proof.
  unfold wrap_int. change (2 ^ 31) with 2147483648.
  change (2 ^ 32) with 4294967296. intros Hx.
  Z.div_mod_to_equations. lia.
Qed.

Lemma fixnum_bits_odd (n : Z) : Z.odd (Z.lor (Z.shiftl n 1) 1) = true.
Proof.
  rewrite <- Z.bit0_odd, Z.lor_spec. by rewrite orb_true_r.
Qed.

Lemma wrap_int_nonzero (x : Z) : x mod 2 ^ 32 ≠ 0 → wrap_int x ≠ 0.
Proof. intros Hx Hz. by apply Hx, wrap_int_zero. Qed.

Lemma address_nonzero (a : Z) : 0 < a < 2 ^ 32 → wrap_int a ≠ 0.
Proof.
  intros Ha. apply wrap_int_nonzero. rewrite Z.mod_small; lia.
Qed.

Lemma fixnum_nonzero (n : Z) : wrap_int (Z.lor (Z.shiftl n 1) 1) ≠ 0.
Proof.
  apply wrap_int_nonzero. intros Hz.
  pose proof (fixnum_bits_odd n) as Hodd.
  apply Z.odd_spec in Hodd as [m Hm]. rewrite Hm in Hz.
  change (2 ^ 32) with 4294967296 in Hz. Z.div_mod_to_equations. lia.
Qed.

(** Only [Qfalse] is zero as an [int]. *)
Lemma axis_set_valid {double : Type} (v : VALUE double) :
  valid_VALUE v → axis_set v = negb (is_Qfalse v).
Proof.
  intros Hv. unfold axis_set, VALUE_to_int.
  destruct v; cbn [VALUE_bits is_Qfalse negb valid_VALUE] in *;
    first
      [ apply bool_decide_eq_true_2, fixnum_nonzero
      | apply bool_decide_eq_true_2, address_nonzero; first [exact Hv | split; reflexivity]
      | apply bool_decide_eq_false_2; intros Hne; apply Hne; reflexivity ].
Qed.

(** The kernel looks at its two flags only to compare them with zero. *)
Lemma flip_pixels_truth (be : bool) (surf newsurf : SDL_Surface) (x y x' y' : Z) :
  (x = 0 ↔ x' = 0) → (y = 0 ↔ y' = 0) →
  flip_pixels be surf newsurf x y = flip_pixels be surf newsurf x' y'.
Proof.
  intros Hx Hy. unfold flip_pixels.
  rewrite (bool_decide_ext (x = 0) (x' = 0)) by done.
  rewrite (bool_decide_ext (y = 0) (y' = 0)) by done.
  rewrite (bool_decide_ext (y ≠ 0) (y' ≠ 0)) by tauto.
  reflexivity.
Qed.

Lemma bool_decide_eq_iff (P Q : Prop) `{Decision P, Decision Q} :
  bool_decide P = bool_decide Q → (P ↔ Q).
Proof.
  intros Heq. split; intros HP.
  - apply (bool_decide_eq_true_1 Q). rewrite <- Heq.
    by apply bool_decide_eq_true_2.
  - apply (bool_decide_eq_true_1 P). rewrite Heq.
    by apply bool_decide_eq_true_2.
Qed.

Lemma bind_ext {A B} (m : M A) (k k' : A → M B) (σ : sdl_state) :
  (∀ a σ1, k a σ1 = k' a σ1) → bind m k σ = bind m k' σ.
Proof.
  intros Hk. unfold bind. destruct (m σ) as [[a|e|] σ1]; [apply Hk|done..].
Qed.

Lemma rbgm_transform_flip_truth {double : Type} (be : bool)
    (a b a' b' : VALUE double) (self : VALUE double) (σ : sdl_state) :
  axis_set a = axis_set a' → axis_set b = axis_set b' →
  rbgm_transform_flip be [a; b] self σ = rbgm_transform_flip be [a'; b'] self σ.
Proof.
  intros Ha Hb. unfold rbgm_transform_flip. simpl.
  apply bind_ext. intros surf σ1. apply bind_ext. intros s σ2.
  apply bind_ext. intros [n|] σ3; [|done].
  apply bind_ext. intros _ σ4. apply bind_ext. intros ns σ5.
  unfold argv_at. simpl.
  rewrite (flip_pixels_truth be s ns (VALUE_to_int a) (VALUE_to_int b)
             (VALUE_to_int a') (VALUE_to_int b')); [done|..].
  - unfold axis_set in Ha. apply bool_decide_eq_iff in Ha. lia.
  - unfold axis_set in Hb. apply bool_decide_eq_iff in Hb. lia.
Qed.
(** By the test on the [int], a reference whose low word is set counts
    as set exactly when it is not [false]. *)
Lemma axis_set_low_word {double : Type} (v : VALUE double) :
  low_word_set v → axis_set v = negb (is_Qfalse v).
Proof.
  intros Hv. unfold axis_set, VALUE_to_int.
  destruct v; cbn [VALUE_bits is_Qfalse negb low_word_set] in *;
    first
      [ apply bool_decide_eq_true_2, fixnum_nonzero
      | apply bool_decide_eq_true_2, wrap_int_nonzero; first [exact Hv | done]
      | apply bool_decide_eq_false_2; intros Hne; apply Hne; reflexivity ].
Qed.



(** ** Depth rejection *)

Lemma never_raises_ret {A} (e : exn) (a : A) : never_raises e (ret a).
Proof. by intros σ. Qed.

Lemma never_raises_undefined {A} (e : exn) : never_raises e (@undefined A).
Proof. by intros σ. Qed.

Lemma never_raises_rb_raise {A} (e : exn) (cls : rb_class) (fmt : string)
    (args : list fmt_arg) :
  e ≠ {| exn_class := cls; exn_fmt := fmt; exn_args := args |} →
  never_raises e (@rb_raise A cls fmt args).
Proof. intros Hne σ. simpl. congruence. Qed.

Lemma never_raises_bind {A B} (e : exn) (m : M A) (k : A → M B) :
  never_raises e m → (∀ a, never_raises e (k a)) → never_raises e (bind m k).
Proof.
  intros Hm Hk σ. unfold bind. specialize (Hm σ).
  destruct (m σ) as [[a|e'|] σ1]; simpl in *.
  - apply (Hk a σ1).
  - intros [= ->]. by apply Hm.
  - discriminate.
Qed.

Lemma never_raises_call_gfx {A} (e : exn) (f : sdl_state → A * sdl_state) :
  never_raises e (call_gfx f).
Proof. intros σ. unfold call_gfx. by destruct (f σ). Qed.

Lemma never_raises_SDL_GetError (e : exn) : never_raises e SDL_GetError.
Proof. by intros σ. Qed.

Ltac no_depth_error :=
  repeat first
    [ apply never_raises_ret | apply never_raises_undefined
    | apply never_raises_call_gfx | apply never_raises_SDL_GetError
    | apply never_raises_rb_raise; discriminate
    | apply never_raises_bind; [|intros ?]
    | case_match ].

Section DepthCheck.
Context {double : Type} `{Double double}.

Lemma NUM2DBL_no_depth_error (v : VALUE double) :
  never_raises UnsupportedDepth (NUM2DBL v).
Proof. destruct v; simpl; no_depth_error. Qed.

Lemma rb_ary_entry_no_depth_error (v : VALUE double) (i : Z) :
  never_raises UnsupportedDepth (rb_ary_entry v i).
Proof. destruct v; simpl; no_depth_error. Qed.

Lemma Data_Get_Struct_no_depth_error (v : VALUE double) :
  never_raises UnsupportedDepth (Data_Get_Struct v).
Proof. destruct v; simpl; no_depth_error. Qed.

Lemma wrap_or_raise_no_depth_error (dst : option loc) :
  never_raises UnsupportedDepth (wrap_or_raise dst).
Proof. destruct dst; simpl; no_depth_error. Qed.

Lemma zoom_factors_no_depth_error (v : VALUE double) :
  never_raises UnsupportedDepth (zoom_factors v).
Proof.
  unfold zoom_factors.
  repeat first
    [ apply NUM2DBL_no_depth_error | apply rb_ary_entry_no_depth_error
    | progress no_depth_error ].
Qed.

(** The dispatch has no depth check: whatever surface they are given,
    [rotozoom] and [zoom] never raise the allocator's exception. *)
Lemma dispatch_no_depth_error (gfx : SDL_gfx double)
    (argv : list (VALUE double)) (self : VALUE double) :
  never_raises UnsupportedDepth (rbgm_transform_rotozoom gfx argv self)
  ∧ never_raises UnsupportedDepth (rbgm_transform_zoom gfx argv self).
Proof.
  split.
  - unfold rbgm_transform_rotozoom.
    repeat first
      [ apply NUM2DBL_no_depth_error | apply rb_ary_entry_no_depth_error
      | apply Data_Get_Struct_no_depth_error
      | apply wrap_or_raise_no_depth_error
      | progress no_depth_error ].
  - unfold rbgm_transform_zoom.
    repeat first
      [ apply zoom_factors_no_depth_error
      | apply Data_Get_Struct_no_depth_error
      | apply wrap_or_raise_no_depth_error
      | progress no_depth_error ].
Qed.
End DepthCheck.

(** [flip] on a surface of unsupported pixel size raises before it
    allocates: the store is as it was. *)
Lemma flip_unsupported_depth {double : Type} (be : bool)
    (a b : VALUE double) (rest : list (VALUE double)) (addr : Z) (p : loc)
    (s : SDL_Surface) (σ : sdl_state) :
  surfaces σ !! p = Some s →
  ¬ (1 <= BytesPerPixel (surf_format s) <= 4) →
  rbgm_transform_flip be (a :: b :: rest) (RData addr p) σ
  = (Raise UnsupportedDepth, σ).
Proof.
  intros Hp Hsz. unfold rbgm_transform_flip.
  rewrite bool_decide_eq_false_2 by (simpl length; lia).
  unfold bind, Data_Get_Struct, ret, deref, newsurf_fromsurf. rewrite Hp.
  unfold bind, deref. rewrite Hp.
  rewrite bool_decide_eq_true_2 by lia. reflexivity.
Qed.

(** C5 (amended). Depth rejection.  [flip] with its two arguments on a
    surface whose pixel size is not 1, 2, 3 or 4 bytes raises the
    unsupported-depth error and leaves the store as it was, so nothing is
    allocated; [zoom] and [rotozoom] have no depth check and never raise
    that error, whatever surface and resampler they are given. *)
Theorem depth_rejected_by_flip_only {double : Type} `{Double double}
    (gfx : SDL_gfx double) (be : bool) (a b : VALUE double)
    (rest : list (VALUE double)) (addr : Z) (p : loc) (s : SDL_Surface)
    (σ : sdl_state) :
  surfaces σ !! p = Some s →
  ¬ (1 <= BytesPerPixel (surf_format s) <= 4) →
  rbgm_transform_flip be (a :: b :: rest) (RData addr p) σ
  = (Raise UnsupportedDepth, σ)
  ∧ (∀ argv self σ0,
       (rbgm_transform_zoom gfx argv self σ0).1 ≠ Raise UnsupportedDepth
       ∧ (rbgm_transform_rotozoom gfx argv self σ0).1 ≠ Raise UnsupportedDepth).
Proof.
  intros Hp Hsz. split; [by apply (flip_unsupported_depth _ _ _ _ _ _ s)|].
  intros argv self σ0.
  destruct (dispatch_no_depth_error gfx argv self) as [Hrz Hz].
  split; [apply Hz|apply Hrz].
Qed.

(** C5 as stated fails for [rotozoom]: on a surface of 8 bytes per pixel
    it returns what the resampler returns. *)
Lemma rotozoom_accepts_any_depth :
  BytesPerPixel (surf_format surface_64bit) = 8
  ∧ (rbgm_transform_rotozoom (stub_gfx true) [Fixnum 0; Fixnum 1; Qfalse]
       self_1 (store_of surface_64bit)).1 = Ret (RetSurface 2%positive)
  ∧ (rbgm_transform_rotozoom (stub_gfx true) [Fixnum 0; Fixnum 1; Qfalse]
       self_1 (store_of surface_64bit)).1 ≠ Raise UnsupportedDepth.
Proof.
  assert (Hrun : (rbgm_transform_rotozoom (stub_gfx true)
                    [Fixnum 0; Fixnum 1; Qfalse] self_1
                    (store_of surface_64bit)).1 = Ret (RetSurface 2%positive))
    by (vm_compute; reflexivity).
  split; [reflexivity|]. split; [exact Hrun|]. rewrite Hrun. discriminate.
Qed.

(** ** The size predictors *)

Lemma rb_ary_elt_first {double : Type} (x : VALUE double) (l : list (VALUE double)) :
  rb_ary_elt (x :: l) 0 = x.
Proof.
  unfold rb_ary_elt.
  rewrite bool_decide_eq_false_2 by (simpl length; lia). reflexivity.
Qed.

(** Runs the conversions of an entry point on explicit arguments. *)
Ltac run_entries :=
  repeat (progress (cbn; unfold bind, ret;
                    rewrite ?(bool_decide_eq_false_2 (0 < 0)) by lia;
                    rewrite ?rb_ary_elt_first)).

Section SizePredictors.
Context {double : Type} `{Double double}.
Variable gfx : SDL_gfx double.

(** What [rotozoom_size] computes when the angle is a Fixnum and the
    zoom argument is not an Array: the zoom factor is taken from the
    angle, the height from the width, and the zoom argument is not
    looked at. *)
Lemma rzsize_fixnum_angle (addr w h a : Z) (zoom : VALUE double) (σ : sdl_state) :
  is_type T_ARRAY zoom = false →
  rbgm_transform_rzsize gfx [RArray addr [Fixnum w; Fixnum h]; Fixnum a; zoom] σ
  = (Ret (if negb (HAVE_ROTOZOOMXY gfx) && bool_decide (a < 0) then RetNil
          else RetSize
                 (rotozoomSurfaceSize gfx w w (dbl_of_long a) (dbl_of_long a)).1
                 (rotozoomSurfaceSize gfx w w (dbl_of_long a) (dbl_of_long a)).2),
     σ).
Proof.
  intros Hzoom. unfold rbgm_transform_rzsize.
  rewrite bool_decide_eq_false_2 by (simpl length; lia).
  cbn [argv_at lookup list_lookup]. rewrite Hzoom.
  run_entries. rewrite dbl_neg_of_long.
  destruct (negb (HAVE_ROTOZOOMXY gfx) && bool_decide (a < 0)); [done|].
  by destruct (rotozoomSurfaceSize gfx w w (dbl_of_long a) (dbl_of_long a)).
Qed.
End SizePredictors.

(** C4. The size predictors read the wrong arguments.  [rotozoom_size]
    with integer arguments returns the resampler's size for a surface of
    width [w] and height [w] at a zoom factor equal to the angle, so its
    result depends neither on the height nor on the zoom argument;
    [zoom_size(size, zoom)] raises on its two documented arguments, and with
    a third one it too takes the height from the width. *)
Theorem size_predictors_misread_arguments {double : Type} `{Double double}
    (gfx : SDL_gfx double) (addr w h a z : Z) (extra : VALUE double)
    (σ : sdl_state) :
  rbgm_transform_rzsize gfx
    [RArray addr [Fixnum w; Fixnum h]; Fixnum a; Fixnum z] σ
  = (Ret (if negb (HAVE_ROTOZOOMXY gfx) && bool_decide (a < 0) then RetNil
          else RetSize
                 (rotozoomSurfaceSize gfx w w (dbl_of_long a) (dbl_of_long a)).1
                 (rotozoomSurfaceSize gfx w w (dbl_of_long a) (dbl_of_long a)).2),
     σ)
  ∧ rbgm_transform_zoomsize gfx [RArray addr [Fixnum w; Fixnum h]; Fixnum z] σ
    = (Raise (wrong_argc "wrong number of arguments (%d for 3)" 2), σ)
  ∧ rbgm_transform_zoomsize gfx
      [RArray addr [Fixnum w; Fixnum h]; Fixnum z; extra] σ
    = (Ret (RetSize
              (zoomSurfaceSize gfx w w (dbl_of_long z) (dbl_of_long z)).1
              (zoomSurfaceSize gfx w w (dbl_of_long z) (dbl_of_long z)).2), σ).
Proof.
  split; [by apply rzsize_fixnum_angle|]. split; [reflexivity|].
  unfold rbgm_transform_zoomsize.
  rewrite bool_decide_eq_false_2 by (simpl length; lia).
  run_entries.
  by destruct (zoomSurfaceSize gfx w w (dbl_of_long z) (dbl_of_long z)).
Qed.

(** C6. Capability gating in the size predictor.  Built without the XY
    entry points, [rotozoom] raises with the version triple for a pair and
    for a negative scalar zoom, and [rotozoom_size] returns [nil] for a
    pair; but for the negative scalar zoom at angle 0 [rotozoom_size]
    returns a size. *)
Theorem rzsize_negative_zoom_not_nil {double : Type} `{Double double}
    (gfx : SDL_gfx double) (addr addr' w h zx zy : Z) (q : positive)
    (smooth : VALUE double) (p : loc) (σ : sdl_state) :
  rbgm_transform_rotozoom (without_xy gfx)
    [Fixnum 0; RArray addr' [Fixnum zx; Fixnum zy]; smooth] (RData addr p) σ
  = (Raise {| exn_class := eSDLError; exn_fmt := no_xy_zoom;
              exn_args := gfx_version gfx |}, σ)
  ∧ rbgm_transform_rotozoom (without_xy gfx)
      [Fixnum 0; Fixnum (Z.neg q); smooth] (RData addr p) σ
    = (Raise {| exn_class := eSDLError; exn_fmt := no_negative_zoom;
                exn_args := gfx_version gfx |}, σ)
  ∧ rbgm_transform_rzsize (without_xy gfx)
      [RArray addr [Fixnum w; Fixnum h]; Fixnum 0;
       RArray addr' [Fixnum zx; Fixnum zy]] σ
    = (Ret RetNil, σ)
  ∧ ∃ dstw dsth,
      rbgm_transform_rzsize (without_xy gfx)
        [RArray addr [Fixnum w; Fixnum h]; Fixnum 0; Fixnum (Z.neg q)] σ
      = (Ret (RetSize dstw dsth), σ).
Proof.
  split; [reflexivity|]. split; [|split].
  - unfold rbgm_transform_rotozoom.
    rewrite bool_decide_eq_false_2 by (simpl length; lia).
    run_entries. rewrite dbl_neg_of_long.
    by rewrite bool_decide_eq_true_2 by lia.
  - unfold rbgm_transform_rzsize.
    rewrite bool_decide_eq_false_2 by (simpl length; lia).
    by run_entries.
  - do 2 eexists. by rewrite rzsize_fixnum_angle.
Qed.

(** C9. A zoom argument that is no number.  [rotozoom] raises the
    ArgumentError for a String zoom, but [rotozoom_size] tests the angle
    instead of the zoom argument and returns normally. *)
Theorem rzsize_accepts_string_zoom {double : Type} `{Double double}
    (gfx : SDL_gfx double) (addr addr' w h a : Z) (str : string)
    (smooth : VALUE double) (p : loc) (σ : sdl_state) :
  rbgm_transform_rotozoom gfx [Fixnum a; RString addr' str; smooth] (RData addr p) σ
  = (Raise {| exn_class := rb_eArgError; exn_fmt := wrong_zoom_type;
              exn_args := [] |}, σ)
  ∧ ∃ r, rbgm_transform_rzsize gfx
           [RArray addr [Fixnum w; Fixnum h]; Fixnum a; RString addr' str] σ
         = (Ret r, σ).
Proof.
  split; [reflexivity|]. eexists. by apply rzsize_fixnum_angle.
Qed.

(** C8. The smooth argument cannot be left out.  [rotozoom] with its
    angle and zoom alone, and [zoom] with its zoom alone, raise the
    ArgumentError of a wrong number of arguments, whatever the values. *)
Theorem smooth_is_required {double : Type} `{Double double} (gfx : SDL_gfx double)
    (angle zoom self : VALUE double) (σ : sdl_state) :
  rbgm_transform_rotozoom gfx [angle; zoom] self σ
  = (Raise (wrong_argc "wrong number of arguments (%d for 3)" 2), σ)
  ∧ rbgm_transform_zoom gfx [zoom] self σ
    = (Raise (wrong_argc "wrong number of arguments (%d for 1)" 1), σ).
Proof. split; reflexivity. Qed.

(** ** The claims at concrete inputs *)

Lemma stub_zoom_keeps (src : loc) (zx zy : Z) :
  keeps_surfaces (λ σ, (stub_zoom src zx zy σ).2).
Proof.
  intros σ p s Hp. unfold stub_zoom.
  destruct (surfaces σ !! src) as [s0|]; [|done].
  destruct (stub_size _ _ _ _) as [w h].
  unfold SDL_CreateRGBSurface. case_bool_decide; cbn [snd surfaces]; [|done].
  rewrite lookup_insert_ne; [done|].
  intros Heq.
  assert (Hf : surfaces σ !! p = None)
    by (rewrite <- Heq; apply fresh_surface_None).
  congruence.
Qed.

Lemma stub_gfx_frame (xy : bool) : gfx_frame (stub_gfx xy).
Proof. repeat split; intros; apply stub_zoom_keeps. Qed.

Lemma surface_4x2_wf : wf_surface surface_4x2.
Proof. vm_compute; repeat split; discriminate. Qed.

Lemma surface_2x1_wf : wf_surface surface_2x1.
Proof. vm_compute; repeat split; discriminate. Qed.

Lemma flip_four_cases_witness :
  wf_surface surface_4x2
  ∧ ∃ n ns σ',
      rbgm_transform_flip false [@rb_bool Z true; rb_bool false] self_1
        (store_of surface_4x2)
      = (Ret (RetSurface n), σ')
      ∧ allocated (store_of surface_4x2) σ' n ns
      ∧ flipped_copy true false surface_4x2 ns.
Proof.
  split; [exact surface_4x2_wf|].
  apply (proj1 flip_four_cases Z false true false 0x1000 1%positive);
    [reflexivity|exact surface_4x2_wf|vm_compute; discriminate].
Defined.

Lemma flip_24bit_keeps_byte_order_witness :
  BytesPerPixel (surf_format surface_2x1) = 3
  ∧ ∃ n ns σ',
      rbgm_transform_flip false [@Qtrue Z; rb_bool false] self_1
        (store_of surface_2x1)
      = (Ret (RetSurface n), σ')
      ∧ allocated (store_of surface_2x1) σ' n ns
      ∧ surf_w ns = 2 ∧ surf_h ns = 1
      ∧ ∀ y x k, 0 <= y < 1 → 0 <= x < 2 → 0 <= k < 3 →
          ∃ b, peek (surf_pixels ns) (y * surf_pitch ns + x * 3 + k) = Some b
               ∧ peek (surf_pixels surface_2x1)
                   (flipped_y false surface_2x1 y * 6 + (2 - 1 - x) * 3 + k)
                 = Some b.
Proof.
  split; [reflexivity|].
  apply (proj1 (proj2 flip_24bit_keeps_byte_order) Z false false 0x1000
           1%positive surface_2x1 (store_of surface_2x1));
    [reflexivity|exact surface_2x1_wf|reflexivity|vm_compute; discriminate].
Defined.

Lemma flip_involution_witness :
  ∃ n1 σ1 n2 s2 σ2,
    rbgm_transform_flip false [@rb_bool Z true; rb_bool true] self_1
      (store_of surface_4x2)
    = (Ret (RetSurface n1), σ1)
    ∧ rbgm_transform_flip false [@rb_bool Z true; rb_bool true] (RData 0x2000 n1) σ1
      = (Ret (RetSurface n2), σ2)
    ∧ surfaces σ2 !! n2 = Some s2
    ∧ surf_w s2 = 4 ∧ surf_h s2 = 2
    ∧ BytesPerPixel (surf_format s2) = 4
    ∧ ∀ y x k, in_surface surface_4x2 y x k →
        ∃ b, peek (surf_pixels s2) (pixel_offset s2 y x k) = Some b
             ∧ peek (surf_pixels surface_4x2) (pixel_offset surface_4x2 y x k)
               = Some b.
Proof.
  apply (flip_involution false true true 0x1000 0x2000 1%positive surface_4x2
           (store_of surface_4x2));
    [reflexivity|exact surface_4x2_wf|vm_compute; discriminate].
Defined.

Lemma depth_rejected_by_flip_only_witness :
  rbgm_transform_flip false [@Qtrue Z; Qfalse] self_1 (store_of surface_64bit)
  = (Raise UnsupportedDepth, store_of surface_64bit)
  ∧ (∀ argv self σ0,
       (rbgm_transform_zoom (stub_gfx false) argv self σ0).1
       ≠ Raise UnsupportedDepth
       ∧ (rbgm_transform_rotozoom (stub_gfx false) argv self σ0).1
         ≠ Raise UnsupportedDepth).
Proof.
  apply (depth_rejected_by_flip_only (stub_gfx false) false Qtrue Qfalse []
           0x1000 1%positive surface_64bit (store_of surface_64bit));
    [reflexivity|vm_compute; intros [_ Hle]; by apply Hle].
Defined.

Lemma no_source_mutation_witness :
  surfaces (rbgm_transform_flip false [@Qtrue Z; Qfalse] self_1
              (store_of surface_4x2)).2 !! 1%positive = Some surface_4x2
  ∧ surfaces (rbgm_transform_zoom (stub_gfx false) [@Qtrue Z; Qfalse] self_1
                (store_of surface_4x2)).2 !! 1%positive = Some surface_4x2
  ∧ surfaces (rbgm_transform_rotozoom (stub_gfx false) [@Qtrue Z; Qfalse] self_1
                (store_of surface_4x2)).2 !! 1%positive = Some surface_4x2
  ∧ ∀ n, (rbgm_transform_flip false [@Qtrue Z; Qfalse] self_1
            (store_of surface_4x2)).1 = Ret (RetSurface n) →
         surfaces (store_of surface_4x2) !! n = None
         ∧ is_Some (surfaces (rbgm_transform_flip false [@Qtrue Z; Qfalse] self_1
                                (store_of surface_4x2)).2 !! n).
Proof.
  apply (no_source_mutation (stub_gfx false) false [Qtrue; Qfalse] self_1
           (store_of surface_4x2) 1%positive surface_4x2);
    [exact (stub_gfx_frame false)|reflexivity].
Defined.


(** * Further properties of the code *)

(** ** Byte order *)

(** Copying a pixel through a [UintN*] moves its bytes, whatever the byte
    order of the host. *)
Lemma copy_uint_byte_order (be : bool) (sz : nat) (srcpix : list byte) (c : cursor) :
  copy_uint be sz srcpix c = copy_uint false sz srcpix c.
Proof.
  unfold copy_uint, load_uint, store_uint.
  destruct (load_bytes srcpix (cur_src c) sz) as [bs|] eqn:Hl; [|done].
  cbn [fmap option_fmap option_map mbind option_bind].
  apply load_bytes_length in Hl.
  assert (Henc : ∀ b, encode_uint b sz (decode_uint b bs) = bs)
    by (intros b; rewrite <- Hl; apply encode_decode_uint).
  by rewrite !Henc.
Qed.

Lemma for_loop_ext {St : Type} (body body' : Z → St → option St) (n : nat) (i : Z)
    (s : St) :
  (∀ j t, body j t = body' j t) → for_loop n i body s = for_loop n i body' s.
Proof.
  intros Hb. revert i s. induction n as [|n IH]; intros i s; [done|].
  simpl. rewrite Hb. destruct (body' i s) as [s'|]; [apply IH|done].
Qed.

Lemma flip_pixels_byte_order (be : bool) (surf newsurf : SDL_Surface) (xaxis yaxis : Z) :
  flip_pixels be surf newsurf xaxis yaxis = flip_pixels false surf newsurf xaxis yaxis.
Proof.
  unfold flip_pixels.
  repeat case_bool_decide; try done;
    apply for_loop_ext; intros j t; unfold reverse_row; f_equal;
    apply for_loop_ext; intros; apply copy_uint_byte_order.
Qed.

(** X1. [flip] does not depend on the byte order of the host: for every
    argument list, receiver and store, the outcome and the final store are
    the same on a big-endian and on a little-endian machine. *)
Theorem flip_independent_of_byte_order {double : Type} (be : bool)
    (argv : list (VALUE double)) (self : VALUE double) (σ : sdl_state) :
  rbgm_transform_flip be argv self σ = rbgm_transform_flip false argv self σ.
Proof.
  unfold rbgm_transform_flip. case_bool_decide; [done|].
  apply bind_ext. intros surf σ1. apply bind_ext. intros s σ2.
  apply bind_ext. intros [n|] σ3; [|done].
  apply bind_ext. intros _ σ4. apply bind_ext. intros ns σ5.
  by rewrite flip_pixels_byte_order.
Qed.

(** X2. [flip] looks at its first two arguments only: further arguments
    change nothing. *)
Theorem flip_ignores_further_arguments {double : Type} (be : bool)
    (a b : VALUE double) (rest : list (VALUE double)) (self : VALUE double)
    (σ : sdl_state) :
  rbgm_transform_flip be (a :: b :: rest) self σ
  = rbgm_transform_flip be [a; b] self σ.
Proof.
  unfold rbgm_transform_flip.
  rewrite !bool_decide_eq_false_2 by (simpl length; lia). reflexivity.
Qed.

(** ** The twin surface *)

Lemma colorkey_flag_set (a b : Z) :
  Z.land (Z.lor a (Z.lor b SDL_SRCCOLORKEY)) SDL_SRCCOLORKEY ≠ 0.
Proof.
  intros Hz. apply (f_equal (λ z, Z.testbit z 12)) in Hz.
  rewrite Z.land_spec, !Z.lor_spec, Z.bits_0 in Hz.
  change (Z.testbit SDL_SRCCOLORKEY 12) with true in Hz.
  rewrite !orb_true_r in Hz. discriminate.
Qed.

(** With a supported pixel size and enough memory, the surface the
    allocator returns is zero-filled, has the pitch SDL chooses, and has
    the format of its model. *)
Lemma newsurf_fromsurf_twin (σ : sdl_state) (p : loc) (s : SDL_Surface) :
  surfaces σ !! p = Some s →
  wf_surface s →
  surf_h s * twin_pitch s <= mem_avail σ →
  ∃ n ns σ1,
    newsurf_fromsurf p (surf_w s) (surf_h s) σ = (Ret (Some n), σ1)
    ∧ allocated σ σ1 n ns
    ∧ surf_pitch ns = twin_pitch s
    ∧ surf_pixels ns = replicate (Z.to_nat (surf_h s * twin_pitch s)) Byte.x00
    ∧ twin_format s ns.
Proof.
  intros Hp Hwf Hmem.
  pose proof (wf_pixel_size s Hwf) as Hsz.
  pose proof Hwf as (_ & _ & Hbits & HBpp & _). cbv zeta in HBpp.
  unfold twin_pitch in *. rewrite HBpp in Hmem.
  unfold newsurf_fromsurf, bind, deref. rewrite Hp.
  rewrite bool_decide_eq_false_2 by lia.
  unfold SDL_CreateRGBSurface. simpl.
  rewrite bool_decide_eq_true_2 by done.
  exists (fresh (dom (surfaces σ))). rewrite <- HBpp.
  destruct (palette (surf_format s)) as [colors|] eqn:Hpal;
    [destruct (bool_decide (BytesPerPixel (surf_format s) = 1)) eqn:Hone|];
    unfold ret; rewrite ?update_surface_insert;
    (destruct (bool_decide (Z.land (surf_flags s) SDL_SRCCOLORKEY ≠ 0)) eqn:Hkey;
     [apply bool_decide_eq_true_1 in Hkey|apply bool_decide_eq_false_1 in Hkey];
     unfold SDL_SetColors, SDL_SetColorKey; rewrite ?update_surface_insert;
     do 2 eexists; (split; [reflexivity|]);
     (split; [split; [apply fresh_surface_None|reflexivity]|]);
     (split; [reflexivity|]); (split; [reflexivity|]);
     unfold twin_format; cbn;
     repeat split; try done; try tauto;
     try apply colorkey_flag_set;
     try (intros colors' Hc H1 H8; rewrite Hpal in Hc;
          first [ discriminate
                | apply bool_decide_eq_false_1 in Hone; tauto
                | injection Hc as <-;
                  by rewrite bool_decide_eq_true_2 by lia ])).
Qed.

(** A successful [flip], step by step: the allocator's twin [ns0], the
    buffer [px] the kernel fills from it, and the store with [ns0] holding
    [px]. *)
Lemma rbgm_transform_flip_twin {double : Type} (be : bool) (a b : VALUE double)
    (addr : Z) (p : loc) (s : SDL_Surface) (σ : sdl_state) :
  surfaces σ !! p = Some s →
  wf_surface s →
  surf_h s * twin_pitch s <= mem_avail σ →
  ∃ n ns0 px σ',
    rbgm_transform_flip be [a; b] (RData addr p) σ = (Ret (RetSurface n), σ')
    ∧ surfaces σ !! n = None
    ∧ surfaces σ' = <[n := set_pixels ns0 px]> (surfaces σ)
    ∧ flip_pixels be s ns0 (VALUE_to_int a) (VALUE_to_int b) = Some px
    ∧ surf_pitch ns0 = twin_pitch s
    ∧ surf_pixels ns0 = replicate (Z.to_nat (surf_h s * twin_pitch s)) Byte.x00
    ∧ twin_format s ns0.
Proof.
  intros Hp Hwf Hmem.
  destruct (newsurf_fromsurf_twin σ p s Hp Hwf Hmem)
    as (n & ns0 & σ1 & Hnew & [Hfresh Hσ1] & Hp0 & Hpx0 & Hfmt).
  destruct (flip_pixels_spec be s ns0 (VALUE_to_int a) (VALUE_to_int b)
              (wf_kernel_pre s ns0 Hwf Hp0 Hpx0)) as (px & Hflip & _).
  exists n, ns0, px. eexists. split.
  { unfold rbgm_transform_flip, bind. simpl.
    unfold deref at 1. rewrite Hp. rewrite Hnew.
    unfold deref. rewrite Hσ1, lookup_insert_eq.
    unfold argv_at. simpl. rewrite Hflip. simpl.
    unfold update_surface. rewrite Hσ1, lookup_insert_eq, insert_insert_eq.
    reflexivity. }
  do 5 (split; [done|]). exact Hfmt.
Qed.

Lemma peek_replicate (n : nat) (b : byte) (i : Z) :
  0 <= i < Z.of_nat n → peek (replicate n b) i = Some b.
Proof.
  intros Hi. unfold peek. rewrite bool_decide_eq_true_2 by lia.
  apply lookup_replicate_2. lia.
Qed.

(** The bytes [flip] does not write keep the zero of the allocator. *)
Lemma rbgm_transform_flip_padding {double : Type} (be : bool) (a b : VALUE double)
    (addr : Z) (p : loc) (s : SDL_Surface) (σ : sdl_state) :
  surfaces σ !! p = Some s →
  wf_surface s →
  surf_h s * twin_pitch s <= mem_avail σ →
  ∃ n ns σ',
    rbgm_transform_flip be [a; b] (RData addr p) σ = (Ret (RetSurface n), σ')
    ∧ surfaces σ' !! n = Some ns
    ∧ surf_pitch ns = twin_pitch s
    ∧ Z.of_nat (length (surf_pixels ns)) = surf_h s * twin_pitch s
    ∧ ∀ i, 0 <= i < surf_h s * twin_pitch s →
           is_padding (surf_h s) (surf_w s) (BytesPerPixel (surf_format s))
             (twin_pitch s) i →
           peek (surf_pixels ns) i = Some Byte.x00.
Proof.
  intros Hp Hwf Hmem.
  destruct (rbgm_transform_flip_twin be a b addr p s σ Hp Hwf Hmem)
    as (n & ns0 & px & σ' & Hrun & Hfresh & Hσ' & Hflip & Hp0 & Hpx0 & _).
  destruct (flip_pixels_spec be s ns0 (VALUE_to_int a) (VALUE_to_int b)
              (wf_kernel_pre s ns0 Hwf Hp0 Hpx0)) as (px' & Hflip' & Hlen & _ & Hpad).
  rewrite Hflip in Hflip'. injection Hflip' as <-.
  assert (0 <= surf_h s * twin_pitch s).
  { pose proof (wf_twin_pitch s Hwf). pose proof (wf_pixel_size s Hwf).
    destruct Hwf as (? & ? & _). nia. }
  exists n, (set_pixels ns0 px), σ'. split; [done|].
  split; [rewrite Hσ'; apply lookup_insert_eq|]. simpl.
  split; [done|].
  split; [rewrite Hlen, Hpx0, length_replicate; lia|].
  intros i Hi Hpadi. rewrite Hpad by (by rewrite Hp0).
  rewrite Hpx0. apply peek_replicate. lia.
Qed.

(** X3. [flip] writes the pixels and nothing else.  In the surface it
    returns every byte that belongs to no pixel (the padding after the
    [w * BytesPerPixel] bytes of a row) is zero, as the allocator left
    it; so a surface of width 0 comes back all zero. *)
Theorem flip_leaves_padding_zero {double : Type} (be : bool) (a b : VALUE double)
    (addr : Z) (p : loc) (s : SDL_Surface) (σ : sdl_state) :
  surfaces σ !! p = Some s →
  wf_surface s →
  surf_h s * twin_pitch s <= mem_avail σ →
  ∃ n ns σ',
    rbgm_transform_flip be [a; b] (RData addr p) σ = (Ret (RetSurface n), σ')
    ∧ surfaces σ' !! n = Some ns
    ∧ Z.of_nat (length (surf_pixels ns)) = surf_h s * twin_pitch s
    ∧ (∀ i, 0 <= i < surf_h s * twin_pitch s →
            is_padding (surf_h s) (surf_w s) (BytesPerPixel (surf_format s))
              (surf_pitch ns) i →
            peek (surf_pixels ns) i = Some Byte.x00)
    ∧ (surf_w s = 0 →
       surf_pixels ns = replicate (Z.to_nat (surf_h s * twin_pitch s)) Byte.x00).
Proof.
  intros Hp Hwf Hmem.
  destruct (rbgm_transform_flip_padding be a b addr p s σ Hp Hwf Hmem)
    as (n & ns & σ' & Hrun & Hns & Hpitch & Hlen & Hzero).
  exists n, ns, σ'. split; [done|]. split; [done|]. split; [done|].
  split; [rewrite Hpitch; exact Hzero|].
  intros Hw0. apply peek_ext. intros i.
  destruct (decide (0 <= i < surf_h s * twin_pitch s)) as [Hi|Hi].
  - rewrite peek_replicate by lia. apply Hzero; [done|].
    intros y Hy. rewrite Hw0. lia.
  - unfold peek. case_bool_decide; [|done].
    rewrite !lookup_ge_None_2; [done|rewrite length_replicate; lia|lia].
Qed.

(** X4. Metadata propagation.  The surface [flip] returns has the depth
    and the channel masks of the source; when the source is an 8-bit
    surface with a palette, its palette begins with the source's colours;
    when the source has a colour key ([SDL_SRCCOLORKEY]), it has the same
    key and the flag, and otherwise key 0. *)
Theorem flip_propagates_format {double : Type} (be : bool) (a b : VALUE double)
    (addr : Z) (p : loc) (s : SDL_Surface) (σ : sdl_state) :
  surfaces σ !! p = Some s →
  wf_surface s →
  surf_h s * twin_pitch s <= mem_avail σ →
  ∃ n ns σ',
    rbgm_transform_flip be [a; b] (RData addr p) σ = (Ret (RetSurface n), σ')
    ∧ surfaces σ' !! n = Some ns
    ∧ twin_format s ns.
Proof.
  intros Hp Hwf Hmem.
  destruct (rbgm_transform_flip_twin be a b addr p s σ Hp Hwf Hmem)
    as (n & ns0 & px & σ' & Hrun & Hfresh & Hσ' & _ & _ & _ & Hfmt).
  exists n, (set_pixels ns0 px), σ'. split; [done|].
  split; [rewrite Hσ'; apply lookup_insert_eq|]. exact Hfmt.
Qed.

(** X5. Allocation failure.  When SDL cannot allocate the pixel buffer of
    the twin, [flip] raises an SDLError that carries SDL's error text; no
    surface is added to the store and none is changed. *)
Theorem flip_allocation_failure {double : Type} (be : bool) (a b : VALUE double)
    (rest : list (VALUE double)) (addr : Z) (p : loc) (s : SDL_Surface)
    (σ : sdl_state) :
  surfaces σ !! p = Some s →
  wf_surface s →
  mem_avail σ < surf_h s * twin_pitch s →
  rbgm_transform_flip be (a :: b :: rest) (RData addr p) σ
  = (Raise {| exn_class := eSDLError; exn_fmt := "%s";
              exn_args := [FStr "Out of memory"] |}, out_of_memory σ).
Proof.
  intros Hp Hwf Hmem.
  pose proof (wf_pixel_size s Hwf) as Hsz.
  pose proof Hwf as (_ & _ & _ & HBpp & _). cbv zeta in HBpp.
  unfold twin_pitch in Hmem. rewrite HBpp in Hmem.
  unfold rbgm_transform_flip.
  rewrite bool_decide_eq_false_2 by (simpl length; lia).
  unfold bind, Data_Get_Struct, ret, deref, newsurf_fromsurf. rewrite Hp.
  unfold bind, deref. rewrite Hp.
  rewrite bool_decide_eq_false_2 by lia.
  unfold SDL_CreateRGBSurface. simpl.
  rewrite bool_decide_eq_false_2 by lia. reflexivity.
Qed.

(** ** Composing flips *)

Lemma flipped_compose (s : SDL_Surface) (h1 v1 h2 v2 : bool) (y x k : Z) :
  in_surface s y x k →
  in_surface s (flipped_y v2 s y) (flipped_x h2 s x) k
  ∧ flipped_y v1 s (flipped_y v2 s y) = flipped_y (xorb v1 v2) s y
  ∧ flipped_x h1 s (flipped_x h2 s x) = flipped_x (xorb h1 h2) s x.
Proof.
  intros (Hy & Hx & Hk). unfold in_surface, flipped_y, flipped_x.
  destruct h1, v1, h2, v2; cbn [xorb]; repeat split; lia.
Qed.

(** X6. Flips compose axis by axis.  [flip(h1, v1)] followed by
    [flip(h2, v2)] on its result gives a surface whose pixels are those of
    the source mirrored along the axes flipped an odd number of times: the
    surface of [flip(h1 xor h2, v1 xor v2)].  So a horizontal then a
    vertical flip is the flip of both axes, and the order of two flips
    does not matter. *)
Theorem flip_axes_compose {double : Type} (be h1 v1 h2 v2 : bool) (addr addr' : Z)
    (p : loc) (s : SDL_Surface) (σ : sdl_state) :
  surfaces σ !! p = Some s →
  wf_surface s →
  2 * (surf_h s * twin_pitch s) <= mem_avail σ →
  ∃ n1 σ1 n2 s2 σ2,
    rbgm_transform_flip be [@rb_bool double h1; rb_bool v1] (RData addr p) σ
    = (Ret (RetSurface n1), σ1)
    ∧ rbgm_transform_flip be [@rb_bool double h2; rb_bool v2] (RData addr' n1) σ1
      = (Ret (RetSurface n2), σ2)
    ∧ surfaces σ2 !! n2 = Some s2
    ∧ flipped_copy (xorb h1 h2) (xorb v1 v2) s s2.
Proof.
  intros Hp Hwf Hmem.
  assert (0 <= surf_h s * twin_pitch s).
  { pose proof (wf_twin_pitch s Hwf). pose proof (wf_pixel_size s Hwf).
    destruct Hwf as (? & ? & _). nia. }
  destruct (rbgm_transform_flip_ok be (@rb_bool double h1) (rb_bool v1)
              addr p s σ Hp Hwf ltac:(lia))
    as (n1 & s1 & σ1 & Hrun1 & [Hfresh1 Hσ1] & Hmem1 & Hcopy1).
  rewrite !axis_set_rb_bool in Hcopy1.
  destruct (flipped_copy_wf _ _ s s1 Hwf Hcopy1) as [Hwf1 Htwin1].
  pose proof Hcopy1 as (Hw1 & Hh1 & Hbits1 & HBpp1 & _ & _ & Hpix1).
  assert (Hp1 : surfaces σ1 !! n1 = Some s1) by (rewrite Hσ1; apply lookup_insert_eq).
  destruct (rbgm_transform_flip_ok be (@rb_bool double h2) (rb_bool v2)
              addr' n1 s1 σ1 Hp1 Hwf1)
    as (n2 & s2 & σ2 & Hrun2 & [Hfresh2 Hσ2] & Hmem2 & Hcopy2).
  { rewrite Htwin1, Hh1, Hmem1. lia. }
  rewrite !axis_set_rb_bool in Hcopy2.
  destruct Hcopy2 as (Hw2 & Hh2 & Hbits2 & HBpp2 & Hpitch2 & Hlen2 & Hpix2).
  exists n1, σ1, n2, s2, σ2.
  split; [done|]. split; [done|].
  split; [rewrite Hσ2; apply lookup_insert_eq|].
  unfold flipped_copy.
  split; [congruence|]. split; [congruence|]. split; [congruence|].
  split; [congruence|]. split; [congruence|]. split; [congruence|].
  intros y x k Hin.
  assert (Hin1 : in_surface s1 y x k)
    by (unfold in_surface in *; rewrite Hw1, Hh1, HBpp1; done).
  destruct (Hpix2 y x k Hin1) as (b & Hb2 & Hb1).
  assert (Hfy : flipped_y v2 s1 y = flipped_y v2 s y)
    by (unfold flipped_y; by rewrite Hh1).
  assert (Hfx : flipped_x h2 s1 x = flipped_x h2 s x)
    by (unfold flipped_x; by rewrite Hw1).
  rewrite Hfy, Hfx in Hb1.
  destruct (flipped_compose s h1 v1 h2 v2 y x k Hin) as (Hin' & Hyy & Hxx).
  destruct (Hpix1 _ _ k Hin') as (b' & Hb1' & Hb0).
  rewrite Hyy, Hxx in Hb0.
  exists b. split; [done|]. congruence.
Qed.


(** ** What the dispatch hands to the resampler *)

Lemma rb_ary_elt_second {double : Type} (x y : VALUE double) (l : list (VALUE double)) :
  rb_ary_elt (x :: y :: l) 1 = y.
Proof.
  unfold rb_ary_elt.
  rewrite bool_decide_eq_false_2 by (simpl length; lia). reflexivity.
Qed.

Lemma rb_ary_elt_past {double : Type} (l : list (VALUE double)) (i : Z) :
  Z.of_nat (length l) <= i → rb_ary_elt l i = Qnil.
Proof.
  intros Hi. unfold rb_ary_elt. by rewrite bool_decide_eq_true_2 by lia.
Qed.

Lemma call_gfx_wrap (f : sdl_state → option loc * sdl_state) (σ : sdl_state) :
  bind (call_gfx f) wrap_or_raise σ = surface_or_error (f σ).
Proof.
  unfold bind, call_gfx, surface_or_error.
  by destruct (f σ) as [[dst|] σ'].
Qed.

Section Dispatch.
Context {double : Type} `{Double double}.
Variable gfx : SDL_gfx double.

(** The factors [zoom] and [zoom_size] read: a number counts for both
    axes, an Array gives its first two elements. *)
Lemma zoom_factors_number (n : Z) (σ : sdl_state) :
  zoom_factors (Fixnum n) σ = (Ret (dbl_of_long n, dbl_of_long n), σ).
Proof. reflexivity. Qed.

Lemma zoom_factors_float (addr : Z) (d : double) (σ : sdl_state) :
  zoom_factors (RFloat addr d) σ = (Ret (d, d), σ).
Proof. reflexivity. Qed.

Lemma zoom_factors_pair (addr zx zy : Z) (more : list (VALUE double))
    (σ : sdl_state) :
  zoom_factors (RArray addr (Fixnum zx :: Fixnum zy :: more)) σ
  = (Ret (dbl_of_long zx, dbl_of_long zy), σ).
Proof.
  unfold zoom_factors. cbn [is_type TYPE]. unfold bind, rb_ary_entry, ret.
  rewrite !bool_decide_eq_false_2 by lia.
  by rewrite rb_ary_elt_first, rb_ary_elt_second.
Qed.

Lemma zoom_factors_short (addr : Z) (l : list (VALUE double)) (σ : sdl_state) :
  l = [] ∨ (∃ zx, l = [Fixnum zx]) →
  zoom_factors (RArray addr l) σ = (Raise NoFloatFromNil, σ).
Proof.
  intros Hl. unfold zoom_factors. cbn [is_type TYPE].
  unfold bind, rb_ary_entry, ret. rewrite !bool_decide_eq_false_2 by lia.
  destruct Hl as [->|[zx ->]].
  - by rewrite rb_ary_elt_past by (simpl; lia).
  - rewrite rb_ary_elt_first. cbn [NUM2DBL ret].
    by rewrite rb_ary_elt_past by (simpl; lia).
Qed.

Lemma zoom_factors_rejected (zoom : VALUE double) (σ : sdl_state) :
  zoom_accepted zoom = false →
  zoom_factors zoom σ = (Raise WrongZoomType, σ).
Proof. destruct zoom; try discriminate; reflexivity. Qed.

Lemma rbgm_transform_zoom_run (zoom smooth : VALUE double)
    (rest : list (VALUE double)) (addr : Z) (p : loc) (σ : sdl_state) :
  rbgm_transform_zoom gfx (zoom :: smooth :: rest) (RData addr p) σ
  = match zoom_factors zoom σ with
    | (Ret (zoomx, zoomy), σ1) =>
        surface_or_error (zoomSurface gfx p zoomx zoomy (VALUE_to_int smooth) σ1)
    | (Raise e, σ1) => (Raise e, σ1)
    | (Undefined, σ1) => (Undefined, σ1)
    end.
Proof.
  unfold rbgm_transform_zoom.
  rewrite bool_decide_eq_false_2 by (simpl length; lia).
  rewrite bool_decide_eq_true_2 by (simpl length; lia).
  cbn [Data_Get_Struct argv_at lookup list_lookup].
  unfold bind at 1. unfold ret at 1. unfold bind at 1.
  destruct (zoom_factors zoom σ) as [[[zoomx zoomy]|e|] σ1]; [|done..].
  apply call_gfx_wrap.
Qed.
End Dispatch.


(** X9. What [rotozoom] asks of the resampler.  A scalar zoom goes to
    [rotozoomSurface] with the angle, when it is not negative or the build
    has the XY entry points; in such a build a pair goes to
    [rotozoomSurfaceXY] with both factors.  The result is the resampler's
    surface or an SDLError with SDL's error text. *)
Theorem rotozoom_dispatch {double : Type} `{Double double} (gfx : SDL_gfx double)
    (a n zx zy addr addr2 : Z) (smooth : VALUE double)
    (more rest : list (VALUE double)) (p : loc) (σ : sdl_state) :
  (HAVE_ROTOZOOMXY gfx = true ∨ 0 <= n →
   rbgm_transform_rotozoom gfx (Fixnum a :: Fixnum n :: smooth :: rest)
     (RData addr p) σ
   = surface_or_error
       (rotozoomSurface gfx p (dbl_of_long a) (dbl_of_long n)
          (VALUE_to_int smooth) σ))
  ∧ (HAVE_ROTOZOOMXY gfx = true →
     rbgm_transform_rotozoom gfx
       (Fixnum a :: RArray addr2 (Fixnum zx :: Fixnum zy :: more) :: smooth :: rest)
       (RData addr p) σ
     = surface_or_error
         (rotozoomSurfaceXY gfx p (dbl_of_long a) (dbl_of_long zx)
            (dbl_of_long zy) (VALUE_to_int smooth) σ)).
Proof.
  split.
  - intros Hok. unfold rbgm_transform_rotozoom.
    rewrite bool_decide_eq_false_2 by (simpl length; lia).
    rewrite bool_decide_eq_true_2 by (simpl length; lia).
    cbn [Data_Get_Struct argv_at lookup list_lookup is_type TYPE FIXNUM_P
         orb NUM2DBL].
    unfold bind at 1. unfold ret at 1. unfold bind at 1. unfold ret at 1.
    unfold bind at 1. unfold ret at 1.
    rewrite dbl_neg_of_long.
    assert (Hgate : negb (HAVE_ROTOZOOMXY gfx) && bool_decide (n < 0) = false).
    { destruct Hok as [->|Hn]; [done|].
      rewrite (bool_decide_eq_false_2 (n < 0)) by lia. apply andb_false_r. }
    rewrite Hgate. apply call_gfx_wrap.
  - intros Hxy. unfold rbgm_transform_rotozoom.
    rewrite bool_decide_eq_false_2 by (simpl length; lia).
    rewrite bool_decide_eq_true_2 by (simpl length; lia).
    cbn [Data_Get_Struct argv_at lookup list_lookup is_type TYPE NUM2DBL].
    rewrite Hxy.
    unfold bind at 1. unfold ret at 1. unfold bind at 1. unfold ret at 1.
    unfold bind at 1. unfold rb_ary_entry at 1. unfold ret at 1.
    rewrite (bool_decide_eq_false_2 (0 < 0)) by lia. rewrite rb_ary_elt_first.
    unfold bind at 1. cbn [NUM2DBL]. unfold ret at 1.
    unfold bind at 1. unfold rb_ary_entry at 1. unfold ret at 1.
    rewrite (bool_decide_eq_false_2 (1 < 0)) by lia. rewrite rb_ary_elt_second.
    unfold bind at 1. cbn [NUM2DBL]. unfold ret at 1.
    apply call_gfx_wrap.
Qed.

(** X10. Zoom factors of another type.  A zoom argument that is neither
    an Array, a Fixnum nor a Float (a Bignum, a String, [nil], [true]) is
    refused with the ArgumentError of a wrong zoom factor type by [zoom],
    by [rotozoom] and by [zoom_size], before the resampler is called: the
    state is as it was. *)
Theorem zoom_of_other_type_is_rejected {double : Type} `{Double double}
    (gfx : SDL_gfx double) (zoom smooth size : VALUE double) (a w addr addr' : Z)
    (l rest : list (VALUE double)) (p : loc) (σ : sdl_state) :
  zoom_accepted zoom = false →
  rbgm_transform_zoom gfx (zoom :: smooth :: rest) (RData addr p) σ
  = (Raise WrongZoomType, σ)
  ∧ rbgm_transform_rotozoom gfx (Fixnum a :: zoom :: smooth :: rest)
      (RData addr p) σ
    = (Raise WrongZoomType, σ)
  ∧ rbgm_transform_zoomsize gfx
      (RArray addr' (Fixnum w :: l) :: zoom :: smooth :: rest) σ
    = (Raise WrongZoomType, σ).
Proof.
  intros Hz. split; [|split].
  - by rewrite rbgm_transform_zoom_run, zoom_factors_rejected.
  - unfold rbgm_transform_rotozoom.
    rewrite bool_decide_eq_false_2 by (simpl length; lia).
    cbn [Data_Get_Struct argv_at lookup list_lookup NUM2DBL].
    unfold bind, ret. destruct zoom; try discriminate Hz; reflexivity.
  - unfold rbgm_transform_zoomsize.
    rewrite bool_decide_eq_false_2 by (simpl length; lia).
    cbn [argv_at lookup list_lookup]. unfold bind, rb_ary_entry, ret.
    rewrite (bool_decide_eq_false_2 (0 < 0)) by lia. rewrite rb_ary_elt_first.
    cbn [NUM2INT]. unfold ret. by rewrite zoom_factors_rejected.
Qed.

(** X11. An Array with fewer than two factors.  The dispatch does not
    check the length of the zoom Array: a missing element reads as [nil],
    so [zoom] and [zoom_size] raise the TypeError of converting [nil] to a
    float, and the resampler is not called. *)
Theorem zoom_short_array_raises_type_error {double : Type} `{Double double}
    (gfx : SDL_gfx double) (zoom_list l : list (VALUE double))
    (smooth : VALUE double) (w addr addr' addr2 : Z)
    (rest : list (VALUE double)) (p : loc) (σ : sdl_state) :
  zoom_list = [] ∨ (∃ zx, zoom_list = [Fixnum zx]) →
  rbgm_transform_zoom gfx (RArray addr2 zoom_list :: smooth :: rest) (RData addr p) σ
  = (Raise NoFloatFromNil, σ)
  ∧ rbgm_transform_zoomsize gfx
      (RArray addr' (Fixnum w :: l) :: RArray addr2 zoom_list :: smooth :: rest) σ
    = (Raise NoFloatFromNil, σ).
Proof.
  intros Hl. split.
  - by rewrite rbgm_transform_zoom_run, zoom_factors_short.
  - unfold rbgm_transform_zoomsize.
    rewrite bool_decide_eq_false_2 by (simpl length; lia).
    cbn [argv_at lookup list_lookup]. unfold bind, rb_ary_entry, ret.
    rewrite (bool_decide_eq_false_2 (0 < 0)) by lia. rewrite rb_ary_elt_first.
    cbn [NUM2INT]. unfold ret.
    fold (rb_ary_entry (RArray addr2 zoom_list)).
    by rewrite zoom_factors_short.
Qed.

(** ** Only pixels are read *)

(** An offset into a buffer of [h] rows of pitch [dp] is a byte of some
    pixel or padding. *)
Lemma pixel_or_padding (h w sz dp i : Z) :
  0 < sz → 0 <= w → w * sz <= dp → 0 <= i < h * dp →
  is_padding h w sz dp i
  ∨ ∃ y x k, 0 <= y < h ∧ 0 <= x < w ∧ 0 <= k < sz ∧ i = y * dp + x * sz + k.
Proof.
  intros Hsz Hw Hdp Hi.
  assert (0 <= w * sz) by nia.
  assert (0 < dp) by (destruct (decide (dp = 0)) as [->|]; lia).
  destruct (decide (i mod dp < w * sz)) as [Hin|Hout].
  - right. exists (i / dp), ((i mod dp) / sz), ((i mod dp) mod sz).
    pose proof (Z.div_mod i dp ltac:(lia)).
    pose proof (Z.mod_pos_bound i dp ltac:(lia)).
    pose proof (Z.div_mod (i mod dp) sz ltac:(lia)).
    pose proof (Z.mod_pos_bound (i mod dp) sz ltac:(lia)).
    assert (0 <= i / dp) by (apply Z.div_pos; lia).
    assert (i / dp < h) by (apply Z.div_lt_upper_bound; lia).
    assert (0 <= (i mod dp) / sz) by (apply Z.div_pos; lia).
    assert ((i mod dp) / sz < w) by (apply Z.div_lt_upper_bound; lia).
    repeat split; lia.
  - left. intros y Hy Hrow. apply Hout.
    assert (Hq : i = dp * y + (i - y * dp)) by lia.
    assert (Hmod : i mod dp = i - y * dp).
    { symmetry. apply (Z.mod_unique i dp y); [lia|exact Hq]. }
    lia.
Qed.

(** X12. Only pixels are read.  Two well-formed sources of the same size
    and depth whose pixels are equal byte for byte, whatever their pitches
    and whatever lies in their row padding, are flipped into surfaces with
    the same pixel buffer. *)
Theorem flip_reads_pixels_only {double : Type} (be : bool) (a b : VALUE double)
    (addr addr' : Z) (p p' : loc) (s s' : SDL_Surface) (σ σ' : sdl_state) :
  surfaces σ !! p = Some s → wf_surface s →
  surf_h s * twin_pitch s <= mem_avail σ →
  surfaces σ' !! p' = Some s' → wf_surface s' →
  surf_h s' * twin_pitch s' <= mem_avail σ' →
  surf_w s' = surf_w s → surf_h s' = surf_h s →
  BitsPerPixel (surf_format s') = BitsPerPixel (surf_format s) →
  (∀ y x k, in_surface s y x k →
     peek (surf_pixels s') (pixel_offset s' y x k)
     = peek (surf_pixels s) (pixel_offset s y x k)) →
  ∃ n ns σ1 n' ns' σ1',
    rbgm_transform_flip be [a; b] (RData addr p) σ = (Ret (RetSurface n), σ1)
    ∧ surfaces σ1 !! n = Some ns
    ∧ rbgm_transform_flip be [a; b] (RData addr' p') σ' = (Ret (RetSurface n'), σ1')
    ∧ surfaces σ1' !! n' = Some ns'
    ∧ surf_pitch ns' = surf_pitch ns
    ∧ surf_pixels ns' = surf_pixels ns.
Proof.
  intros Hp Hwf Hmem Hp' Hwf' Hmem' Hw Hh Hbits Hsame.
  pose proof (wf_pixel_size s Hwf) as Hsz.
  pose proof (wf_twin_pitch s Hwf) as Htw.
  assert (HBpp : BytesPerPixel (surf_format s') = BytesPerPixel (surf_format s)).
  { destruct Hwf as (_ & _ & _ & -> & _), Hwf' as (_ & _ & _ & -> & _).
    by rewrite Hbits. }
  assert (Htwin : twin_pitch s' = twin_pitch s)
    by (unfold twin_pitch; by rewrite Hw, Hbits, HBpp).
  destruct (rbgm_transform_flip_ok be a b addr p s σ Hp Hwf Hmem)
    as (n & ns & σ1 & Hrun & [_ Hσ1] & _ & Hc).
  destruct (rbgm_transform_flip_ok be a b addr' p' s' σ' Hp' Hwf' Hmem')
    as (n' & ns' & σ1' & Hrun' & [_ Hσ1'] & _ & Hc').
  destruct (rbgm_transform_flip_padding be a b addr p s σ Hp Hwf Hmem)
    as (m & ms & τ & Hrunz & Hms & _ & _ & Hpad).
  destruct (rbgm_transform_flip_padding be a b addr' p' s' σ' Hp' Hwf' Hmem')
    as (m' & ms' & τ' & Hrunz' & Hms' & _ & _ & Hpad').
  rewrite Hrun in Hrunz. injection Hrunz as <- <-.
  rewrite Hrun' in Hrunz'. injection Hrunz' as <- <-.
  rewrite Hσ1, lookup_insert_eq in Hms. injection Hms as <-.
  rewrite Hσ1', lookup_insert_eq in Hms'. injection Hms' as <-.
  destruct Hc as (Hw1 & Hh1 & _ & HB1 & Hpitch & Hlen & Hpix).
  destruct Hc' as (Hw1' & Hh1' & _ & HB1' & Hpitch' & Hlen' & Hpix').
  exists n, ns, σ1, n', ns', σ1'.
  split; [done|]. split; [rewrite Hσ1; apply lookup_insert_eq|].
  split; [done|]. split; [rewrite Hσ1'; apply lookup_insert_eq|].
  split; [congruence|].
  apply peek_ext. intros i.
  destruct (decide (0 <= i < surf_h s * twin_pitch s)) as [Hi|Hi].
  - destruct Hwf as (Hw0 & _).
    destruct (pixel_or_padding (surf_h s) (surf_w s)
                (BytesPerPixel (surf_format s)) (twin_pitch s) i)
      as [Hpadi|(y & x & k & Hy & Hx & Hk & ->)]; [lia..| |].
    + rewrite Hpad by done.
      rewrite Hpad'; [done|rewrite Hh, Htwin; done|].
      rewrite Hh, Hw, HBpp, Htwin. done.
    + assert (Hin : in_surface s y x k) by done.
      assert (Hin' : in_surface s' y x k)
        by (unfold in_surface; rewrite Hw, Hh, HBpp; done).
      destruct (Hpix y x k Hin) as (c & Hc1 & Hc0).
      destruct (Hpix' y x k Hin') as (c' & Hc1' & Hc0').
      unfold pixel_offset in Hc1, Hc1'.
      rewrite Hpitch, HB1 in Hc1. rewrite Hpitch', HB1', Htwin, HBpp in Hc1'.
      rewrite Hc1, Hc1'.
      assert (Hfy : flipped_y (axis_set b) s' y = flipped_y (axis_set b) s y)
        by (unfold flipped_y; by rewrite Hh).
      assert (Hfx : flipped_x (axis_set a) s' x = flipped_x (axis_set a) s x)
        by (unfold flipped_x; by rewrite Hw).
      rewrite Hfy, Hfx in Hc0'.
      destruct (flipped_compose s false false (axis_set a) (axis_set b) y x k Hin)
        as (Hinf & _ & _).
      rewrite (Hsame _ _ _ Hinf) in Hc0'. congruence.
  - unfold peek. case_bool_decide; [|done].
    rewrite !lookup_ge_None_2; [done|lia|]. rewrite Htwin, Hh in Hlen'. lia.
Qed.

(** ** The further properties at concrete inputs *)

Lemma surface_paletted_wf : wf_surface surface_paletted.
Proof. vm_compute; repeat split; discriminate. Qed.

Lemma surface_2x1_padded_wf : wf_surface surface_2x1_padded.
Proof. vm_compute; repeat split; discriminate. Qed.

Lemma flip_leaves_padding_zero_witness :
  ∃ n ns σ',
    rbgm_transform_flip false [@Qtrue Z; Qfalse] self_1 (store_of surface_2x1)
    = (Ret (RetSurface n), σ')
    ∧ surfaces σ' !! n = Some ns
    ∧ Z.of_nat (length (surf_pixels ns)) = surf_h surface_2x1 * twin_pitch surface_2x1
    ∧ (∀ i, 0 <= i < surf_h surface_2x1 * twin_pitch surface_2x1 →
            is_padding (surf_h surface_2x1) (surf_w surface_2x1)
              (BytesPerPixel (surf_format surface_2x1)) (surf_pitch ns) i →
            peek (surf_pixels ns) i = Some Byte.x00)
    ∧ (surf_w surface_2x1 = 0 →
       surf_pixels ns
       = replicate (Z.to_nat (surf_h surface_2x1 * twin_pitch surface_2x1))
           Byte.x00).
Proof.
  apply (flip_leaves_padding_zero false Qtrue Qfalse 0x1000 1%positive
           surface_2x1 (store_of surface_2x1));
    [reflexivity|exact surface_2x1_wf|vm_compute; discriminate].
Defined.

Lemma flip_propagates_format_witness :
  ∃ n ns σ',
    rbgm_transform_flip false [@Qtrue Z; Qtrue] self_1 (store_of surface_paletted)
    = (Ret (RetSurface n), σ')
    ∧ surfaces σ' !! n = Some ns
    ∧ twin_format surface_paletted ns.
Proof.
  apply (flip_propagates_format false Qtrue Qtrue 0x1000 1%positive
           surface_paletted (store_of surface_paletted));
    [reflexivity|exact surface_paletted_wf|vm_compute; discriminate].
Defined.

Lemma flip_allocation_failure_witness :
  rbgm_transform_flip false [@Qtrue Z; Qfalse] self_1 (store_with surface_4x2 16)
  = (Raise {| exn_class := eSDLError; exn_fmt := "%s";
              exn_args := [FStr "Out of memory"] |},
     out_of_memory (store_with surface_4x2 16)).
Proof.
  apply (flip_allocation_failure false Qtrue Qfalse [] 0x1000 1%positive
           surface_4x2 (store_with surface_4x2 16));
    [reflexivity|exact surface_4x2_wf|vm_compute; reflexivity].
Defined.

Lemma flip_axes_compose_witness :
  ∃ n1 σ1 n2 s2 σ2,
    rbgm_transform_flip false [@rb_bool Z true; rb_bool false] self_1
      (store_of surface_4x2)
    = (Ret (RetSurface n1), σ1)
    ∧ rbgm_transform_flip false [@rb_bool Z false; rb_bool true] (RData 0x2000 n1) σ1
      = (Ret (RetSurface n2), σ2)
    ∧ surfaces σ2 !! n2 = Some s2
    ∧ flipped_copy (xorb true false) (xorb false true) surface_4x2 s2.
Proof.
  apply (flip_axes_compose false true false false true 0x1000 0x2000 1%positive
           surface_4x2 (store_of surface_4x2));
    [reflexivity|exact surface_4x2_wf|vm_compute; discriminate].
Defined.


Lemma rotozoom_dispatch_witness :
  rbgm_transform_rotozoom (stub_gfx true) [Fixnum 90; Fixnum (-1); Qfalse]
    (RData 0x1000 1%positive) (store_of surface_4x2)
  = surface_or_error
      (rotozoomSurface (stub_gfx true) 1%positive (dbl_of_long 90)
         (dbl_of_long (-1)) (VALUE_to_int (@Qfalse Z)) (store_of surface_4x2))
  ∧ rbgm_transform_rotozoom (stub_gfx true)
      [Fixnum 90; RArray 0x4000 [Fixnum 2; Fixnum 3]; Qfalse]
      (RData 0x1000 1%positive) (store_of surface_4x2)
    = surface_or_error
        (rotozoomSurfaceXY (stub_gfx true) 1%positive (dbl_of_long 90)
           (dbl_of_long 2) (dbl_of_long 3) (VALUE_to_int (@Qfalse Z))
           (store_of surface_4x2)).
Proof.
  split.
  - exact (proj1 (rotozoom_dispatch (stub_gfx true) 90 (-1) 2 3 0x1000 0x4000
                    Qfalse [] [] 1%positive (store_of surface_4x2))
             (or_introl eq_refl)).
  - exact (proj2 (rotozoom_dispatch (stub_gfx true) 90 (-1) 2 3 0x1000 0x4000
                    Qfalse [] [] 1%positive (store_of surface_4x2)) eq_refl).
Defined.

Lemma zoom_of_other_type_is_rejected_witness :
  rbgm_transform_zoom (stub_gfx true) [RBignum 0x3000 (2 ^ 70); Qfalse]
    (RData 0x1000 1%positive) (store_of surface_4x2)
  = (Raise WrongZoomType, store_of surface_4x2)
  ∧ rbgm_transform_rotozoom (stub_gfx true)
      [Fixnum 0; RBignum 0x3000 (2 ^ 70); Qfalse] (RData 0x1000 1%positive)
      (store_of surface_4x2)
    = (Raise WrongZoomType, store_of surface_4x2)
  ∧ rbgm_transform_zoomsize (stub_gfx true)
      [RArray 0x4000 [Fixnum 4; Fixnum 2]; RBignum 0x3000 (2 ^ 70); Qfalse]
      (store_of surface_4x2)
    = (Raise WrongZoomType, store_of surface_4x2).
Proof.
  exact (zoom_of_other_type_is_rejected (stub_gfx true) (RBignum 0x3000 (2 ^ 70))
           Qfalse Qnil 0 4 0x1000 0x4000 [Fixnum 2] [] 1%positive
           (store_of surface_4x2) eq_refl).
Defined.

Lemma zoom_short_array_raises_type_error_witness :
  rbgm_transform_zoom (stub_gfx true) [RArray 0x3000 [Fixnum 2]; Qfalse]
    (RData 0x1000 1%positive) (store_of surface_4x2)
  = (Raise NoFloatFromNil, store_of surface_4x2)
  ∧ rbgm_transform_zoomsize (stub_gfx true)
      [RArray 0x4000 [Fixnum 4; Fixnum 2]; RArray 0x3000 [Fixnum 2]; Qfalse]
      (store_of surface_4x2)
    = (Raise NoFloatFromNil, store_of surface_4x2).
Proof.
  exact (zoom_short_array_raises_type_error (stub_gfx true) [Fixnum 2] [Fixnum 2]
           Qfalse 4 0x1000 0x4000 0x3000 [] 1%positive (store_of surface_4x2)
           (or_intror (ex_intro _ 2 eq_refl))).
Defined.

Lemma flip_reads_pixels_only_witness :
  ∃ n ns σ1 n' ns' σ1',
    rbgm_transform_flip false [@Qtrue Z; Qfalse] self_1 (store_of surface_2x1)
    = (Ret (RetSurface n), σ1)
    ∧ surfaces σ1 !! n = Some ns
    ∧ rbgm_transform_flip false [@Qtrue Z; Qfalse] self_1
        (store_of surface_2x1_padded)
      = (Ret (RetSurface n'), σ1')
    ∧ surfaces σ1' !! n' = Some ns'
    ∧ surf_pitch ns' = surf_pitch ns
    ∧ surf_pixels ns' = surf_pixels ns.
Proof.
  apply (flip_reads_pixels_only false Qtrue Qfalse 0x1000 0x1000 1%positive
           1%positive surface_2x1 surface_2x1_padded (store_of surface_2x1)
           (store_of surface_2x1_padded));
    [reflexivity|exact surface_2x1_wf|vm_compute; discriminate
    |reflexivity|exact surface_2x1_padded_wf|vm_compute; discriminate
    |reflexivity|reflexivity|reflexivity|].
  intros y x k (Hy & Hx & Hk).
  change (0 <= y < 1) in Hy. change (0 <= x < 2) in Hx. change (0 <= k < 3) in Hk.
  assert (y = 0) as -> by lia.
  assert (x = 0 ∨ x = 1) as [-> | ->] by lia;
    (assert (k = 0 ∨ k = 1 ∨ k = 2) as [-> | [-> | ->]] by lia);
    reflexivity.
Defined.
